(** * The SwingSet vat loader and kernel replay: a shallow embedding

    The loader ([makeVatLoader]) is translated from
    [src/unnamed/part_002]; JavaScript objects used as option bags are
    finite maps from property names to values, and the collaborators the
    loader receives in [stuff] are fields of a record.  Calls to the
    collaborators are recorded, in program order, in a log threaded
    through a small state-and-error monad. *)

From Stdlib Require Import Ascii String ZArith.
From stdpp Require Import gmap strings pretty list fin_maps.

Open Scope string_scope.
Open Scope list_scope.

(** ** JavaScript values *)

(** Objects and functions are opaque references: the loader never looks
    inside a bundle, a console, a translator table or a manager.  [JNum]
    holds an integer of the safe range (its [0] stands for both zeros);
    every other number that is not NaN (a fraction, an integer beyond the
    safe range, an infinity) is an opaque [JNumOther].  A string is held
    as its UTF-8 bytes. *)
Inductive jsval : Type :=
  | JUndefined
  | JNull
  | JBool (b : bool)
  | JNum (z : Z)
  | JNaN
  | JNumOther (ref : positive)
  | JStr (s : string)
  | JObject (ref : positive)
  | JFunction (ref : positive).

#[global] Instance jsval_eq_dec : EqDecision jsval.
Proof. solve_decision. Defined.

(** ToBoolean. *)
Definition truthy (v : jsval) : bool :=
  match v with
  | JUndefined | JNull | JNaN => false
  | JBool b => b
  | JNum z => negb (Z.eqb z 0)
  | JStr s => negb (String.eqb s "")
  | JNumOther _ | JObject _ | JFunction _ => true
  end.

(** The [typeof] operator. *)
Definition typeof (v : jsval) : string :=
  match v with
  | JUndefined => "undefined"
  | JNull => "object"
  | JBool _ => "boolean"
  | JNum _ | JNaN | JNumOther _ => "number"
  | JStr _ => "string"
  | JObject _ => "object"
  | JFunction _ => "function"
  end.

(** [v != null]: loose inequality with [null] is false only for [null]
    and [undefined]. *)
Definition not_nullish (v : jsval) : bool :=
  match v with
  | JUndefined | JNull => false
  | _ => true
  end.

(** [a || b] *)
Definition js_or (a b : jsval) : jsval := if truthy a then a else b.

(** A plain object: own properties by name. *)
Abbreviation obj := (gmap string jsval).

(** [k in o] *)
Definition has_prop (k : string) (o : obj) : bool := bool_decide (is_Some (o !! k)).

(** [o.k] *)
Definition get (o : obj) (k : string) : jsval := default JUndefined (o !! k).

(** [const { k = d } = o]: the default is taken when the property is
    missing or holds [undefined]. *)
Definition get_default (o : obj) (k : string) (d : jsval) : jsval :=
  match get o k with
  | JUndefined => d
  | v => v
  end.

(** [{ ...a, ...b }]: properties of [b] win. *)
Definition spread (a b : obj) : obj := b ∪ a.

(** [{ ...a, k: v }] *)
Definition set_prop (k : string) (v : jsval) (a : obj) : obj := <[k := v]> a.

(** ** Strings *)

Definition is_space (c : ascii) : bool :=
  match c with
  | " "%char | "009"%char | "010"%char | "011"%char | "012"%char | "013"%char => true
  | _ => false
  end.

(** The white space and line terminators of JavaScript beyond ASCII, as
    UTF-8: U+00A0 in two bytes; U+1680, U+2000 to U+200A, U+2028, U+2029,
    U+202F, U+205F, U+3000 and U+FEFF in three. *)
Definition space2 : list (ascii * ascii) := [ ("194", "160") ]%char.

Definition space3 : list (ascii * ascii * ascii) :=
  [ ("225", "154", "128");
    ("226", "128", "128"); ("226", "128", "129"); ("226", "128", "130");
    ("226", "128", "131"); ("226", "128", "132"); ("226", "128", "133");
    ("226", "128", "134"); ("226", "128", "135"); ("226", "128", "136");
    ("226", "128", "137"); ("226", "128", "138");
    ("226", "128", "168"); ("226", "128", "169"); ("226", "128", "175");
    ("226", "129", "159");
    ("227", "128", "128");
    ("239", "187", "191") ]%char.

Definition is_space2 (a b : ascii) : bool := bool_decide ((a, b) ∈ space2).

Definition is_space3 (a b c : ascii) : bool := bool_decide ((a, b, c) ∈ space3).

(** [s.trimStart()] *)
Fixpoint trim_start (s : string) : string :=
  match s with
  | String a s1 =>
      if is_space a then trim_start s1
      else match s1 with
           | String b s2 =>
               if is_space2 a b then trim_start s2
               else match s2 with
                    | String c s3 => if is_space3 a b c then trim_start s3 else s
                    | EmptyString => s
                    end
           | EmptyString => s
           end
  | EmptyString => EmptyString
  end.

(** [trimEnd] on the reversed string: the bytes of a character come last
    byte first. *)
Fixpoint trim_reversed (r : string) : string :=
  match r with
  | String a r1 =>
      if is_space a then trim_reversed r1
      else match r1 with
           | String b r2 =>
               if is_space2 b a then trim_reversed r2
               else match r2 with
                    | String c r3 => if is_space3 c b a then trim_reversed r3 else r
                    | EmptyString => r
                    end
           | EmptyString => r
           end
  | EmptyString => EmptyString
  end.

Fixpoint string_rev_onto (acc s : string) : string :=
  match s with
  | String c s' => string_rev_onto (String c acc) s'
  | EmptyString => acc
  end.

Definition string_reverse (s : string) : string := string_rev_onto "" s.

(** [s.trim()] *)
Definition trim (s : string) : string :=
  string_reverse (trim_reversed (string_reverse (trim_start s))).

(** ToString, as used by template literals.  What an object or a function
    prints as depends on the object; it is supplied by the instance, and
    so is the shortest decimal or exponent form of a number that is not a
    safe integer. *)
Class RefToString := ref_to_string : jsval → string.

Definition js_to_string `{RefToString} (v : jsval) : string :=
  match v with
  | JUndefined => "undefined"
  | JNull => "null"
  | JBool true => "true"
  | JBool false => "false"
  | JNum z => if bool_decide (- (2 ^ 53 - 1) ≤ z ≤ 2 ^ 53 - 1)%Z then pretty z
              else ref_to_string v
  | JNaN => "NaN"
  | JNumOther _ => ref_to_string v
  | JStr s => s
  | JObject _ | JFunction _ => ref_to_string v
  end.

(** ** Errors, collaborator calls and the loader monad *)

(** One constructor per place where the loader (or a collaborator) fails. *)
Inductive error : Type :=
  | BrokenSource
  | UnknownBundleName (bundleName : jsval)
  | UnknownBundleID (bundleID : jsval)
  | UnknownSourceDescriptor (source : obj)
  | BundleNotObject
  | UnknownOption
  | NoVatAdminRootKref
  | FactoryRejected (reason : jsval).

#[global] Instance error_eq_dec : EqDecision error.
Proof. solve_decision. Defined.

(** The message each assertion of the loader carries. *)
Definition error_message `{RefToString} (e : error) : string :=
  match e with
  | BrokenSource => "broken source"
  | UnknownBundleName n => "unknown bundle name " +:+ js_to_string n
  | UnknownBundleID i => "unknown bundleID " +:+ js_to_string i
  | UnknownSourceDescriptor _ => "unknown vat source descriptor"
  | BundleNotObject => "vat creation requires bundle"
  | UnknownOption => "unknown option"
  | NoVatAdminRootKref => "initializeKernel did not set vatAdminRootKref"
  | FactoryRejected r => js_to_string r
  end.

(** The error taxonomy of the specification. *)
Inductive error_class : Type :=
  | InvalidSourceError
  | UnknownBundleError
  | InvalidOptionError
  | PreconditionError
  | OtherError.

Definition classify (e : error) : error_class :=
  match e with
  | BrokenSource | UnknownSourceDescriptor _ => InvalidSourceError
  | UnknownBundleName _ | UnknownBundleID _ => UnknownBundleError
  | UnknownOption => InvalidOptionError
  | NoVatAdminRootKref => PreconditionError
  | BundleNotObject | FactoryRejected _ => OtherError
  end.

(** A call to one of the collaborators received in [stuff]. *)
Inductive event : Type :=
  | GetNamedBundle (bundleName : jsval)
  | GetBundle (bundleID : jsval)
  | ProvideVatSlogger (vatID : string) (isDynamic : bool) (description : string)
      (name vatSourceBundle managerType : jsval)
  | MakeSourcedConsole (vatID : string)
  | BuildVatSyscallHandler (vatID : string) (translators : jsval)
  | SlogStartup (vatID : string)
  | VatManagerFactory (vatID : string) (managerOptions : obj) (vatSyscallHandler : jsval)
  | SlogFinish (vatID : string)
  | Panic (problem : string) (err : error).

(** A computation reads the log of calls made so far, and returns either a
    value or the error thrown (for the [async] functions: the rejection of
    the promise), together with the extended log. *)
Definition M (A : Type) : Type := list event → (error + A) * list event.

Definition ret {A} (a : A) : M A := λ log, (inr a, log).

Definition throw {A} (e : error) : M A := λ log, (inl e, log).

Definition bind {A B} (m : M A) (k : A → M B) : M B :=
  λ log, match m log with
         | (inr a, log') => k a log'
         | (inl e, log') => (inl e, log')
         end.

(** [m.catch(h)] *)
Definition catch {A} (m : M A) (h : error → M A) : M A :=
  λ log, match m log with
         | (inr a, log') => (inr a, log')
         | (inl e, log') => h e log'
         end.

(** Record a call and return what the collaborator answered. *)
Definition call {A} (ev : event) (answer : A) : M A := λ log, (inr answer, log ++ [ev]).

(** [assert(cond, details)] *)
Definition assert (cond : bool) (e : error) : M unit :=
  if cond then ret tt else throw e.

(** [cond && action()] used as a statement. *)
Definition when (cond : bool) (action : M unit) : M unit :=
  if cond then action else ret tt.

#[global] Instance M_ret : MRet M := @ret.
#[global] Instance M_bind : MBind M := λ A B k m, bind m k.

(** ** The collaborators *)

(** How the promise returned by the injected manager factory settles. *)
Inductive settled : Type :=
  | Fulfilled (manager : jsval)
  | Rejected (reason : jsval).

(** The fields of [stuff].  [kernelSlog.provideVatSlogger] answers the
    [starting] flag; [panic] only reports and is a log entry. *)
Record Stuff : Type := {
  overrideVatManagerOptions : option obj;
  vatManagerFactory : string → obj → jsval → settled;
  provideVatSlogger : string → bool → string → jsval → jsval → jsval → jsval;
  makeSourcedConsole : string → jsval;
  getNamedBundle : jsval → jsval;
  getBundle : jsval → jsval;
  buildVatSyscallHandler : string → jsval → jsval;
  vatAdminRootKref : jsval;
}.

(** ** [makeVatLoader] *)

(** [const { overrideVatManagerOptions = {} } = stuff] *)
Definition overrides (stuff : Stuff) : obj := default ∅ (overrideVatManagerOptions stuff).

Definition allowedDynamicOptions : list string :=
  [ "description"; "meterID"; "managerType"; "enableSetup"; "enablePipelining";
    "virtualObjectCacheSize"; "useTranscript"; "reapInterval" ].

Definition allowedStaticOptions : list string :=
  [ "description"; "name"; "managerType"; "enableDisavow"; "enableSetup";
    "enablePipelining"; "virtualObjectCacheSize"; "useTranscript"; "reapInterval" ].

(** Modelled from the spec: [assertKnownOptions] of [lib/assertOptions.js],
    which is imported by the loader but is not among the sources.  The
    specification says that the option bag is validated against the
    allow-list and that an unknown key fails the whole creation. *)
Definition assertKnownOptions (options : obj) (knownNames : list string) : M unit :=
  assert (forallb (λ name, bool_decide (name ∈ knownNames)) (map fst (map_to_list options)))
         UnknownOption.

Section makeVatLoader.
Context `{RefToString} (stuff : Stuff).

(** [await vatManagerFactory(vatID, managerOptions, vatSyscallHandler)] *)
Definition await_vatManagerFactory (vatID : string) (managerOptions : obj)
    (vatSyscallHandler : jsval) : M jsval :=
  outcome ← call (VatManagerFactory vatID managerOptions vatSyscallHandler)
                 (vatManagerFactory stuff vatID managerOptions vatSyscallHandler);
  match outcome with
  | Fulfilled manager => mret manager
  | Rejected reason => throw (FactoryRejected reason)
  end.

(** The first part of [create] (through [assert.typeof]): which bundle
    the source descriptor stands for, and how to describe it. *)
Definition resolveSource (source : obj) : M (jsval * string) :=
  assert (has_prop "bundle" source || has_prop "bundleName" source
          || has_prop "bundleID" source) BrokenSource;;
  '(vatSourceBundle, sourceDesc) ←
    (if has_prop "bundle" source then
       mret (get source "bundle", "from source bundle")
     else if has_prop "bundleName" source then
       vatSourceBundle ← call (GetNamedBundle (get source "bundleName"))
                              (getNamedBundle stuff (get source "bundleName"));
       assert (truthy vatSourceBundle) (UnknownBundleName (get source "bundleName"));;
       mret (vatSourceBundle,
             "from bundleName: " +:+ js_to_string (get source "bundleName"))
     else if has_prop "bundleID" source then
       vatSourceBundle ← call (GetBundle (get source "bundleID"))
                              (getBundle stuff (get source "bundleID"));
       assert (truthy vatSourceBundle) (UnknownBundleID (get source "bundleID"));;
       mret (vatSourceBundle,
             "from bundleID: " +:+ js_to_string (get source "bundleID"))
     else throw (UnknownSourceDescriptor source));
  assert (String.eqb (typeof vatSourceBundle) "object") BundleNotObject;;
  mret (vatSourceBundle, sourceDesc).

(** [`${options.description || ''} (${sourceDesc})`.trim()] *)
Definition describe (options : obj) (sourceDesc : string) : string :=
  trim (js_to_string (js_or (get options "description") (JStr ""))
        +:+ " (" +:+ sourceDesc +:+ ")").

(** The destructuring of [options] and the [managerOptions] literal of
    [create]; [sourcedConsole] is what [makeSourcedConsole(vatID)]
    returned. *)
Definition composeManagerOptions (vatSourceBundle : jsval) (options : obj)
    (sourcedConsole : jsval) : obj :=
  let meterID := get options "meterID" in
  let managerType := get options "managerType" in
  let enableSetup := get_default options "enableSetup" (JBool false) in
  let enableDisavow := get_default options "enableDisavow" (JBool false) in
  let enablePipelining := get_default options "enablePipelining" (JBool false) in
  let virtualObjectCacheSize := get options "virtualObjectCacheSize" in
  let useTranscript := get_default options "useTranscript" (JBool true) in
  let name := get options "name" in
  spread (list_to_map
            [ ("managerType", managerType);
              ("bundle", vatSourceBundle);
              ("metered", JBool (truthy meterID));
              ("enableDisavow", enableDisavow);
              ("enableSetup", enableSetup);
              ("enablePipelining", enablePipelining);
              ("sourcedConsole", sourcedConsole);
              ("virtualObjectCacheSize", virtualObjectCacheSize);
              ("useTranscript", useTranscript);
              ("name", name) ])
         (overrides stuff).

Definition create (vatID : string) (source : obj) (translators : jsval)
    (options : obj) (isDynamic : bool) : M jsval :=
  '(vatSourceBundle, sourceDesc) ← resolveSource source;
  assertKnownOptions options
    (if isDynamic then allowedDynamicOptions else allowedStaticOptions);;
  let managerType := get options "managerType" in
  let name := get options "name" in
  let description := describe options sourceDesc in
  starting ← call (ProvideVatSlogger vatID isDynamic description name
                                     vatSourceBundle managerType)
                  (provideVatSlogger stuff vatID isDynamic description name
                                     vatSourceBundle managerType);
  sourcedConsole ← call (MakeSourcedConsole vatID) (makeSourcedConsole stuff vatID);
  let managerOptions :=
    composeManagerOptions vatSourceBundle options sourcedConsole in
  vatSyscallHandler ← call (BuildVatSyscallHandler vatID translators)
                           (buildVatSyscallHandler stuff vatID translators);
  when (truthy starting) (call (SlogStartup vatID) tt);;
  manager ← await_vatManagerFactory vatID managerOptions vatSyscallHandler;
  when (truthy starting) (call (SlogFinish vatID) tt);;
  mret manager.

(** [dynamicOptions = {}]: [None] is the omitted argument. *)
Definition createVatDynamically (vatID : string) (source : obj) (translators : jsval)
    (dynamicOptions : option obj) : M jsval :=
  assert (truthy (vatAdminRootKref stuff)) NoVatAdminRootKref;;
  create vatID source translators (default ∅ dynamicOptions) true.

Definition recreateDynamicVat (vatID : string) (source : obj) (translators : jsval)
    (dynamicOptions : obj) : M jsval :=
  catch (create vatID source translators dynamicOptions true)
        (λ err, call (Panic ("unable to re-create vat " +:+ vatID) err) tt;;
                throw err).

Definition recreateStaticVat (vatID : string) (source : obj) (translators : jsval)
    (staticOptions : obj) : M jsval :=
  catch (create vatID source translators staticOptions false)
        (λ err, call (Panic ("unable to re-create vat " +:+ vatID) err) tt;;
                throw err).

(** The [managerOptions] literal of [loadTestVat]. *)
Definition composeTestManagerOptions (setup : jsval) (creationOptions : obj) : obj :=
  spread (set_prop "useTranscript" (JBool true)
            (set_prop "managerType" (JStr "local")
               (set_prop "enableSetup" (JBool true)
                  (set_prop "setup" setup creationOptions))))
         (overrides stuff).

Definition loadTestVat (vatID : string) (setup : jsval) (translators : jsval)
    (creationOptions : obj) : M jsval :=
  let managerOptions := composeTestManagerOptions setup creationOptions in
  vatSyscallHandler ← call (BuildVatSyscallHandler vatID translators)
                           (buildVatSyscallHandler stuff vatID translators);
  manager ← await_vatManagerFactory vatID managerOptions vatSyscallHandler;
  mret manager.

End makeVatLoader.

(** ** Observations on runs of the loader *)

(** How many of the three forms a source descriptor has. *)
Definition forms_present (source : obj) : nat :=
  length (filter (λ k, has_prop k source = true) ["bundle"; "bundleName"; "bundleID"]).

(** The allow-list [create] passes to [assertKnownOptions]. *)
Definition allowedOptions (isDynamic : bool) : list string :=
  if isDynamic then allowedDynamicOptions else allowedStaticOptions.

(** The class of the error a run failed with, if it failed. *)
Definition failure_class {A} (r : error + A) : option error_class :=
  match r with
  | inl e => Some (classify e)
  | inr _ => None
  end.

(** The read-only queries to the keeper. *)
Definition is_lookup (ev : event) : bool :=
  match ev with
  | GetNamedBundle _ | GetBundle _ => true
  | _ => false
  end.

(** ** A concrete loader, for running the definitions *)

(** The objects below are plain ones, which print as [[object Object]];
    nothing else is printed through the instance. *)
#[global] Instance plain_refs : RefToString := λ _, "[object Object]".

(** A keeper that knows the bundle name [zoe] and the bundle ID [b1-cafe],
    a manager factory that always succeeds, and an established vat-admin
    root. *)
Definition demoStuff : Stuff := {|
  overrideVatManagerOptions := None;
  vatManagerFactory := λ _ _ _, Fulfilled (JObject 9);
  provideVatSlogger := λ _ _ _ _ _ _, JBool true;
  makeSourcedConsole := λ _, JObject 5;
  getNamedBundle := λ n, if decide (n = JStr "zoe") then JObject 2 else JUndefined;
  getBundle := λ i, if decide (i = JStr "b1-cafe") then JObject 3 else JUndefined;
  buildVatSyscallHandler := λ _ _, JFunction 6;
  vatAdminRootKref := JStr "ko20";
|}.

(** An inline bundle, and a descriptor with two forms. *)
Definition inlineSource : obj := {[ "bundle" := JObject 1 ]}.

Definition twoFormSource : obj := <[ "bundleName" := JStr "zoe" ]> inlineSource.

(** A descriptor naming a bundle the keeper of [demoStuff] knows. *)
Definition namedSource : obj := {[ "bundleName" := JStr "zoe" ]}.

(** Descriptors naming bundles the keeper of [demoStuff] does not know. *)
Definition unknownNameSource : obj := {[ "bundleName" := JStr "nope" ]}.

Definition unknownIDSource : obj := {[ "bundleID" := JStr "b1-dead" ]}.

(** Option bags: a meter, an empty meter name, a key no list allows. *)
Definition meteredOptions : obj := {[ "meterID" := JStr "m1" ]}.

Definition emptyMeterOptions : obj := {[ "meterID" := JStr "" ]}.

Definition bogusOptions : obj := {[ "bogus" := JNum 1 ]}.

(** Kernel-wide overrides that force the worker type. *)
Definition xsOverrides : obj := {[ "managerType" := JStr "xs-worker" ]}.

(** The same loader with kernel-wide overrides. *)
Definition withOverrides (o : obj) (stuff : Stuff) : Stuff := {|
  overrideVatManagerOptions := Some o;
  vatManagerFactory := vatManagerFactory stuff;
  provideVatSlogger := provideVatSlogger stuff;
  makeSourcedConsole := makeSourcedConsole stuff;
  getNamedBundle := getNamedBundle stuff;
  getBundle := getBundle stuff;
  buildVatSyscallHandler := buildVatSyscallHandler stuff;
  vatAdminRootKref := vatAdminRootKref stuff;
|}.

(** The same loader before [initializeKernel] set the vat-admin root. *)
Definition withoutVatAdmin (stuff : Stuff) : Stuff := {|
  overrideVatManagerOptions := overrideVatManagerOptions stuff;
  vatManagerFactory := vatManagerFactory stuff;
  provideVatSlogger := provideVatSlogger stuff;
  makeSourcedConsole := makeSourcedConsole stuff;
  getNamedBundle := getNamedBundle stuff;
  getBundle := getBundle stuff;
  buildVatSyscallHandler := buildVatSyscallHandler stuff;
  vatAdminRootKref := JUndefined;
|}.

(** ** The kernel: cranks, transcripts and restart *)

(** Modelled from the spec: the kernel behind [buildVatController]
    ([kernel/index.js] with its [start] and [step]) and the swing-store are
    not among the sources; only the controller wrapper and the replay test
    are.  The model follows the specification: the run-queue is processed
    first in first out, one delivery per crank; the syscalls a vat issues
    are translated into kernel-wide operations; one transcript entry (the
    delivery and the syscalls issued in response) is appended per crank;
    at start the kernel replays every transcript against a freshly
    constructed vat, any divergence from the recorded syscalls being
    fatal, and queues the bootstrap delivery unless the state says it was
    done already.  The run-queue, the kernel tables and the transcripts
    are persisted; the state inside a vat is not.  Every vat keeps a
    transcript ([useTranscript] at its default, as in the replay
    scenario). *)
Module Kernel.
Section kernel.

(** The vats of the configuration: the state of a freshly constructed
    vat and its reaction to a delivery. *)
Context {vstate delivery syscall ktables argv : Type} `{EqDecision syscall}.
Context (vat_fresh : string → vstate).
Context (vat_dispatch : string → vstate → delivery → vstate * list syscall).

(** The syscall translator: the kernel-wide effect of one syscall of a
    vat on the kernel tables, and the deliveries it queues. *)
Context (translate : string → syscall → ktables → ktables * list (string * delivery)).

(** The delivery that starts the bootstrap vat. *)
Context (bootstrap_delivery : argv → delivery).

(** What [getAllState] returns and [setAllState] restores. *)
Record persisted : Type := {
  initialized : bool;
  runQueue : list (string * delivery);
  tables : ktables;
  transcripts : gmap string (list (delivery * list syscall));
}.

(** A running kernel: its storage and the vats in memory. *)
Record kernel : Type := {
  storage : persisted;
  vats : gmap string vstate;
}.

(** The vat as it is in memory; one that received nothing yet is fresh. *)
Definition vat_state (k : kernel) (vatID : string) : vstate :=
  default (vat_fresh vatID) (vats k !! vatID).

Definition transcript_of (s : persisted) (vatID : string) : list (delivery * list syscall) :=
  default [] (transcripts s !! vatID).

Definition translate_all (vatID : string) (syscalls : list syscall) (tb : ktables)
    : ktables * list (string * delivery) :=
  foldl (λ acc sc, let '(tb', queued) := translate vatID sc acc.1 in
                   (tb', acc.2 ++ queued))
        (tb, []) syscalls.

(** One crank: the delivery at the head of the run-queue is handed to
    its vat; the result is the new kernel and what the vat issued
    ([None] when there was nothing to run). *)
Definition step (k : kernel) : kernel * option (string * list syscall) :=
  let s := storage k in
  match runQueue s with
  | [] => (k, None)
  | (vatID, d) :: rest =>
      let '(vs', syscalls) := vat_dispatch vatID (vat_state k vatID) d in
      let '(tb', queued) := translate_all vatID syscalls (tables s) in
      ({| storage := {| initialized := initialized s;
                        runQueue := rest ++ queued;
                        tables := tb';
                        transcripts :=
                          <[vatID := transcript_of s vatID ++ [(d, syscalls)]]>
                            (transcripts s) |};
          vats := <[vatID := vs']> (vats k) |},
       Some (vatID, syscalls))
  end.

(** [n] calls of [step], with the outputs of the cranks in order. *)
Fixpoint steps (n : nat) (k : kernel) : kernel * list (option (string * list syscall)) :=
  match n with
  | O => (k, [])
  | S n' => let '(k1, out) := step k in
            let '(k2, outs) := steps n' k1 in
            (k2, out :: outs)
  end.

(** Replay of one entry: the real syscalls are disabled, and the vat
    must ask for exactly the recorded ones. *)
Definition replay_entry (vatID : string) (acc : option vstate)
    (entry : delivery * list syscall) : option vstate :=
  vs ← acc;
  let '(vs', syscalls) := vat_dispatch vatID vs entry.1 in
  if decide (syscalls = entry.2) then Some vs' else None.

(** Replay of a transcript against a freshly constructed vat; [None] is
    the determinism violation. *)
Definition replay (vatID : string) (entries : list (delivery * list syscall))
    : option vstate :=
  foldl (replay_entry vatID) (Some (vat_fresh vatID)) entries.

(** [kernel.start(bootstrapVatID, argv)] on the loaded state. *)
Definition start (s : persisted) (bootstrapVatID : string) (a : argv) : option kernel :=
  let replayed := map_imap replay (transcripts s) in
  if decide (dom replayed = dom (transcripts s)) then
    Some {| storage :=
              if initialized s then s
              else {| initialized := true;
                      runQueue := runQueue s ++ [(bootstrapVatID, bootstrap_delivery a)];
                      tables := tables s;
                      transcripts := transcripts s |};
            vats := replayed |}
  else None.

(** [buildVatController(config, argv)] with the state found in the host
    storage: the kernel is built on it and started with the bootstrap
    vat [_bootstrap]. *)
Definition buildVatController (hostStorage : persisted) (a : argv) : option kernel :=
  start hostStorage "_bootstrap" a.

(** [getAllState(storage)] after [n] calls of [c.step()]. *)
Definition state_after (n : nat) (k : kernel) : persisted := storage (steps n k).1.

(** What the vats issued during these [n] cranks. *)
Definition outputs (n : nat) (k : kernel) : list (option (string * list syscall)) :=
  (steps n k).2.

(** The vats in memory are what replaying their transcripts gives, and the
    bootstrap was queued. *)
Definition consistent (k : kernel) : Prop :=
  initialized (storage k) = true ∧
  ∀ vatID, replay vatID (transcript_of (storage k) vatID) = Some (vat_state k vatID).

(** Two kernels that running cannot tell apart: the same storage, and the
    same state in every vat. *)
Definition same_kernel (k k' : kernel) : Prop :=
  storage k = storage k' ∧ ∀ vatID, vat_state k vatID = vat_state k' vatID.

End kernel.

(** *** A small configuration, for running the model *)

(** Each vat keeps a running total of the numbers delivered to it and,
    while the total is below ten, sends it on to its peer. *)
Definition peer (vatID : string) : string :=
  if String.eqb vatID "_bootstrap" then "alice"
  else if String.eqb vatID "alice" then "bob" else "alice".

Definition demo_fresh (vatID : string) : nat := 0.

Definition demo_dispatch (vatID : string) (total : nat) (d : nat)
    : nat * list (string * nat) :=
  let total' := total + d in
  (total', if Nat.ltb total' 10 then [(peer vatID, total')] else []).

(** The kernel tables count the syscalls translated so far; a send is
    queued for its target. *)
Definition demo_translate (vatID : string) (sc : string * nat) (tb : nat)
    : nat * list (string * nat) :=
  (S tb, [sc]).

Definition demo_bootstrap (a : nat) : nat := a.

(** An empty host storage. *)
Definition genesis : @persisted nat (string * nat) nat :=
  {| initialized := false; runQueue := []; tables := 0; transcripts := ∅ |}.

(** The kernel [buildVatController] makes of [genesis] with argv [1]. *)
Definition genesis_kernel : @kernel nat nat (string * nat) nat :=
  {| storage := {| initialized := true; runQueue := [("_bootstrap", 1)];
                   tables := 0; transcripts := ∅ |};
     vats := ∅ |}.

End Kernel.

(** ** The configuration loader and the controller *)

(** [loadBasedir], [manageStateInBasedir] and [buildVatController] of
    [src/unnamed/part_001].  The file system, Node's [path] functions,
    [JSON.parse], the loading of a vat's [setup] function and the kernel
    are supplied from outside, each with the cases in which it throws;
    the console and the calls made on the kernel are recorded in order. *)
Module Controller.

(** *** String methods *)

Definition chars (s : string) : list ascii := list_ascii_of_string s.

(** [s.startsWith(p)] *)
Definition startsWith (s p : string) : bool :=
  bool_decide (chars p `prefix_of` chars s).

(** [s.endsWith(p)] *)
Definition endsWith (s p : string) : bool :=
  bool_decide (chars p `suffix_of` chars s).

(** [s.slice(start, -fromEnd)]: from index [start] up to [fromEnd]
    characters before the end; empty when the two cross. *)
Definition slice (s : string) (start fromEnd : nat) : string :=
  string_of_list_ascii
    (take (length (chars s) - fromEnd - start) (drop start (chars s))).

(** [s[0] === '.'] *)
Definition first_is_dot (s : string) : bool :=
  match s with
  | String c _ => bool_decide (c = "."%char)
  | EmptyString => false
  end.

(** *** A [Map] from strings to strings, in insertion order *)

(** [m.set(k, v)]: a key already there keeps its place. *)
Fixpoint Map_set (k v : string) (m : list (string * string)) : list (string * string) :=
  match m with
  | [] => [(k, v)]
  | (k', v') :: m' =>
      if decide (k = k') then (k, v) :: m' else (k', v') :: Map_set k v m'
  end.

(** [m.get(k)] *)
Fixpoint Map_get (k : string) (m : list (string * string)) : option string :=
  match m with
  | [] => None
  | (k', v') :: m' => if decide (k = k') then Some v' else Map_get k m'
  end.

(** [m.keys()] *)
Definition Map_keys (m : list (string * string)) : list string := map fst m.

(** *** The file system *)

(** An entry of a directory listing made with [withFileTypes]. *)
Record dirent : Type := {
  name : string;
  isFile : bool;
}.

(** [readdirSync] answers [None] when it throws; [statSync] answers
    whether the path is there (it throws when it is not). *)
Record filesystem : Type := {
  readdirSync : string → option (list dirent);
  statSync : string → bool;
}.

(** The configuration object. *)
Record config {E : Type} : Type := {
  devices : option (list (string * string * E));
  vatSources : option (list (string * string));
  bootstrapIndexJS : option string;
  initialState : option string;
}.
Arguments config : clear implicits.

Section controller.
Context {E S A J : Type}.

(** [path.resolve(basedir, name)] and [path.isAbsolute(p)]. *)
Context (resolve : string → string → string) (isAbsolute : string → bool).

(** How the [setup] function of a vat or device is obtained from its
    source index: bundled and evaluated in the SES realm, or required.
    [inl reason] when [bundleSource], [s.evaluate] or [require] throws
    (a file that is not there, a directory, a source that does not
    evaluate). *)
Context (loadSetup : bool → string → string + S).

(** [JSON.parse], [None] when it throws, and the empty object. *)
Context (JSON_parse : string → option J) (emptyObject : J).

(** What one directory entry does to the vat sources and the console. *)
Definition loadEntry (basedir : string) (acc : list (string * string) * list string)
    (d : dirent) : list (string * string) * list string :=
  if endsWith (name d) "~" then acc
  else if startsWith (name d) "vat-" && isFile d && endsWith (name d) ".js" then
    let vatName := slice (name d) (String.length "vat-") (String.length ".js") in
    let indexJS := resolve basedir (name d) in
    (Map_set vatName indexJS acc.1, acc.2)
  else (acc.1, acc.2 ++ ["ignoring " +:+ " " +:+ name d]).

(** [loadBasedir(basedir)]: the configuration (or [None] when the
    directory cannot be read) and the lines written to the console. *)
Definition loadBasedir (fs : filesystem) (basedir : string)
    : option (config E) * list string :=
  let console := ["= loading config from basedir " +:+ basedir] in
  match readdirSync fs basedir with
  | None => (None, console)
  | Some subs =>
      let '(sources, console') := foldl (loadEntry basedir) ([], console) subs in
      let bootstrap := resolve basedir "bootstrap.js" in
      (Some {| devices := None;
               vatSources := Some sources;
               bootstrapIndexJS := if statSync fs bootstrap then Some bootstrap else None;
               initialState := None |},
       console')
  end.

(** [manageStateInBasedir(basedir).initialState] on the files [files]:
    whatever goes wrong in reading or parsing leaves the empty object. *)
Definition manageStateInBasedir (files : gmap string string) (basedir : string) : J :=
  match files !! resolve basedir "state.json" with
  | Some data => default emptyObject (JSON_parse data)
  | None => emptyObject
  end.

(** [manageStateInBasedir(basedir).save(state)] *)
Definition save (basedir : string) (state : string) (files : gmap string string)
    : gmap string string :=
  <[resolve basedir "state.json" := state]> files.

(** The console and the kernel, as [buildVatController] uses them.
    [BuildKernel] is [buildSESKernel(initialState)] or
    [buildNonSESKernel(initialState)]; [KernelStart v argv] is
    [kernel.start(v, JSON.stringify(argv))]. *)
Inductive call : Type :=
  | ConsoleLog (line : string)
  | BuildKernel (withSES : bool) (initialState : string)
  | KernelAddGenesisDevice (deviceName : string) (setup : S) (endowments : E)
  | KernelAddGenesisVat (vatID : string) (setup : S)
  | KernelStart (bootstrapVatID : string) (argv : A).

(** Whether a call on the kernel throws (for [kernel.start]: is
    rejected), and with what, after everything done so far. *)
Context (kernelThrows : list call → call → option string).

(** What [buildVatController] can throw: the error of its own check of a
    source index, what the loading of a [setup] function threw, what the
    kernel threw. *)
Inductive thrown : Type :=
  | BareSourceIndex
  | LoadFailed (reason : string)
  | KernelFailed (reason : string).

Inductive outcome : Type :=
  | Done
  | Threw (e : thrown).

Definition bareSourceIndex : string :=
  "sourceIndex must be relative (./foo) or absolute (/foo) not bare (foo)".

(** The message of what was thrown. *)
Definition message (e : thrown) : string :=
  match e with
  | BareSourceIndex => bareSourceIndex
  | LoadFailed reason | KernelFailed reason => reason
  end.

(** A call on the kernel: recorded, whether it throws or not. *)
Definition kernelCall (c : call) (log : list call) : outcome * list call :=
  match kernelThrows log c with
  | Some reason => (Threw (KernelFailed reason), log ++ [c])
  | None => (Done, log ++ [c])
  end.

(** [addGenesisVat(vatID, sourceIndex)] *)
Definition addGenesisVat (withSES : bool) (vatID sourceIndex : string)
    (log : list call) : outcome * list call :=
  let log1 := log ++ [ConsoleLog ("= adding vat '" +:+ vatID +:+ "' from " +:+ sourceIndex)] in
  if negb (first_is_dot sourceIndex || isAbsolute sourceIndex)
  then (Threw BareSourceIndex, log1)
  else
    match loadSetup withSES sourceIndex with
    | inl reason => (Threw (LoadFailed reason), log1)
    | inr setup => kernelCall (KernelAddGenesisVat vatID setup) log1
    end.

(** [addGenesisDevice(name, sourceIndex, endowments)] *)
Definition addGenesisDevice (withSES : bool) (device : string * string * E)
    (log : list call) : outcome * list call :=
  let '(deviceName, sourceIndex, endowments) := device in
  if negb (first_is_dot sourceIndex || isAbsolute sourceIndex)
  then (Threw BareSourceIndex, log)
  else
    match loadSetup withSES sourceIndex with
    | inl reason => (Threw (LoadFailed reason), log)
    | inr setup => kernelCall (KernelAddGenesisDevice deviceName setup endowments) log
    end.

(** A [for] loop whose body is awaited: the first throw ends it. *)
Fixpoint forEach {X : Type} (body : X → list call → outcome * list call)
    (xs : list X) (log : list call) : outcome * list call :=
  match xs with
  | [] => (Done, log)
  | x :: xs' =>
      match body x log with
      | (Done, log') => forEach body xs' log'
      | thrown => thrown
      end
  end.

(** [a ; b] for awaited statements. *)
Definition andThen (first next : list call → outcome * list call)
    (log : list call) : outcome * list call :=
  match first log with
  | (Done, log') => next log'
  | thrown => thrown
  end.

(** [buildVatController(config, withSES, argv)]: whether it returned the
    controller or threw, and everything it did. *)
Definition buildVatController (cfg : config E) (withSES : bool) (argv : A)
    : outcome * list call :=
  let initial :=
    match initialState cfg with
    | Some s => if String.eqb s "" then "{}" else s
    | None => "{}"
    end in
  andThen (kernelCall (BuildKernel withSES initial))
    (andThen (forEach (addGenesisDevice withSES) (default [] (devices cfg)))
       (andThen
          (forEach (λ vatID log,
                      addGenesisVat withSES vatID
                        (default "" (Map_get vatID (default [] (vatSources cfg)))) log)
                   (Map_keys (default [] (vatSources cfg))))
          (andThen
             (match bootstrapIndexJS cfg with
              | Some index =>
                  if String.eqb index "" then (λ log, (Done, log))
                  else addGenesisVat withSES "_bootstrap" index
              | None => (λ log, (Done, log))
              end)
             (kernelCall (KernelStart "_bootstrap" argv)))))
    [].

(** A source index the controller accepts: relative or absolute. *)
Definition accepted (sourceIndex : string) : bool :=
  first_is_dot sourceIndex || isAbsolute sourceIndex.

(** A source index whose [setup] function loads. *)
Definition loads (withSES : bool) (sourceIndex : string) : bool :=
  match loadSetup withSES sourceIndex with
  | inr _ => true
  | inl _ => false
  end.

(** The source indexes [buildVatController] goes through: of the
    devices, of the vats, of the bootstrap vat. *)
Definition sourceIndexes (cfg : config E) : list string :=
  map (λ device : string * string * E, device.1.2) (default [] (devices cfg))
  ++ map (λ vatID, default "" (Map_get vatID (default [] (vatSources cfg))))
       (Map_keys (default [] (vatSources cfg)))
  ++ match bootstrapIndexJS cfg with
     | Some index => if String.eqb index "" then [] else [index]
     | None => []
     end.

(** What is added to the kernel, in the order of the additions: the
    devices, the vats, the bootstrap vat. *)
Definition additions (cfg : config E) : list (string * string * E + string * string) :=
  map inl (default [] (devices cfg))
  ++ map (λ vatID, inr (vatID, default "" (Map_get vatID (default [] (vatSources cfg)))))
       (Map_keys (default [] (vatSources cfg)))
  ++ match bootstrapIndexJS cfg with
     | Some index => if String.eqb index "" then [] else [inr ("_bootstrap", index)]
     | None => []
     end.

Definition addOne (withSES : bool) (item : string * string * E + string * string)
    (log : list call) : outcome * list call :=
  match item with
  | inl device => addGenesisDevice withSES device log
  | inr (vatID, sourceIndex) => addGenesisVat withSES vatID sourceIndex log
  end.

Definition sourceIndexOf (item : string * string * E + string * string) : string :=
  match item with
  | inl device => device.1.2
  | inr (vatID, sourceIndex) => sourceIndex
  end.

(** A step that only adds to the record and does not start the kernel. *)
Definition registers (f : list call → outcome * list call) : Prop :=
  ∀ log, ∃ evs, (f log).2 = log ++ evs ∧ (∀ v a, KernelStart v a ∉ evs).

End controller.

(** *** A small base directory, for running the definitions *)

(** [path.resolve] and [path.isAbsolute] in the POSIX way, for a process
    whose working directory is [/cwd] (no normalisation of dots). *)
Definition posix_resolve (dir file : string) : string :=
  if startsWith dir "/" then dir +:+ "/" +:+ file
  else "/cwd/" +:+ dir +:+ "/" +:+ file.

Definition posix_isAbsolute (p : string) : bool := startsWith p "/".

(** [/demo] holds two vats, a bootstrap file, an editor backup, a
    directory named like a vat and a read-me. *)
Definition demo_listing : list dirent :=
  [ {| name := "vat-alice.js"; isFile := true |};
    {| name := "bootstrap.js"; isFile := true |};
    {| name := "vat-old.js~"; isFile := true |};
    {| name := "vat-dir.js"; isFile := false |};
    {| name := "vat-bob.js"; isFile := true |};
    {| name := "README.md"; isFile := true |} ].

Definition demo_fs : filesystem := {|
  readdirSync := λ dir, if decide (dir = "/demo") then Some demo_listing else None;
  statSync := λ p, bool_decide (p = "/demo/bootstrap.js");
|}.

(** The configuration [loadBasedir] makes of [/demo]. *)
Definition demo_config : config unit := {|
  devices := None;
  vatSources := Some [("alice", "/demo/vat-alice.js"); ("bob", "/demo/vat-bob.js")];
  bootstrapIndexJS := Some "/demo/bootstrap.js";
  initialState := None;
|}.

(** A [setup] function stands for the file it was loaded from; only the
    files of [/demo] can be loaded. *)
Definition demo_loadSetup (withSES : bool) (sourceIndex : string) : string + string :=
  if bool_decide (sourceIndex ∈ ["/demo/vat-alice.js"; "/demo/vat-bob.js";
                                 "/demo/bootstrap.js"])
  then inr sourceIndex
  else inl ("Cannot find module '" +:+ sourceIndex +:+ "'").

(** A kernel that accepts every call. *)
Definition demo_kernel {E S A : Type} (log : list (@call E S A)) (c : @call E S A)
    : option string := None.

End Controller.

(** ** The pixel gallery's canvas *)

(** The canvas state of [makeGallery] in [src/more/pixels/gallery.js]:
    [makeRandomData], [setPixelState] and [getColor].  A row is a
    JavaScript array: writing beyond its end extends it and leaves
    holes. *)
Module Gallery.

Inductive error : Type :=
  | RangeError (value : Z)
  | TypeError.

(** [Nat(x)]: the number itself when it is a non-negative safe integer. *)
Definition Nat (x : Z) : error + nat :=
  if bool_decide (0 ≤ x ≤ 2 ^ 53 - 1)%Z then inr (Z.to_nat x) else inl (RangeError x).

Definition getRandomColor : string := "#D3D3D3".

(** The two nested loops of [makeRandomData]: [canvasSize] rows of
    [canvasSize] colours. *)
Definition makeRandomData (canvasSize : nat) : list (list (option string)) :=
  replicate canvasSize (replicate canvasSize (Some getRandomColor)).

(** [row[y] = v] *)
Definition array_set (row : list (option string)) (y : nat) (v : string)
    : list (option string) :=
  if bool_decide (y < length row) then <[y := Some v]> row
  else row ++ replicate (y - length row) None ++ [Some v].

(** [row[y]]: [None] is [undefined], beyond the end as in a hole. *)
Definition array_get (row : list (option string)) (y : nat) : option string :=
  mjoin (row !! y).

(** [setPixelState(pixel, newColor)] with [pixel = {x, y}]: the new
    state, and the states handed to [stateChangeHandler]. *)
Definition setPixelState (state : list (list (option string))) (x y : nat)
    (newColor : string) (handled : list (list (list (option string))))
    : error + list (list (option string)) * list (list (list (option string))) :=
  match state !! x with
  | None => inl TypeError
  | Some row =>
      let state' := <[x := array_set row y newColor]> state in
      inr (state', handled ++ [state'])
  end.

(** [getColor(x, y)] *)
Definition getColor (state : list (list (option string))) (x y : Z)
    : error + option string :=
  match Nat x with
  | inl e => inl e
  | inr x' =>
      match Nat y with
      | inl e => inl e
      | inr y' =>
          match state !! x' with
          | None => inl TypeError
          | Some row => inr (array_get row y')
          end
      end
  end.

(** The canvas is a full square of [canvasSize] by [canvasSize] cells. *)
Definition full_square (canvasSize : nat) (state : list (list (option string))) : Prop :=
  length state = canvasSize
  ∧ Forall (λ row, length row = canvasSize ∧ Forall is_Some row) state.

End Gallery.


(** * Properties of the loader *)

Ltac run_M :=
  unfold assert, when, catch, mbind, M_bind, mret, M_ret, bind, call, ret, throw in *.

Section loader_facts.
Context `{RefToString} (stuff : Stuff).

(** [resolveSource], branch by branch. *)
Lemma resolveSource_cases (source : obj) (log : list event) :
  resolveSource stuff source log =
    if has_prop "bundle" source then
      if String.eqb (typeof (get source "bundle")) "object"
      then (inr (get source "bundle", "from source bundle"), log)
      else (inl BundleNotObject, log)
    else if has_prop "bundleName" source then
      let bundleName := get source "bundleName" in
      let found := getNamedBundle stuff bundleName in
      let log1 := log ++ [GetNamedBundle bundleName] in
      if truthy found then
        if String.eqb (typeof found) "object"
        then (inr (found, "from bundleName: " +:+ js_to_string bundleName), log1)
        else (inl BundleNotObject, log1)
      else (inl (UnknownBundleName bundleName), log1)
    else if has_prop "bundleID" source then
      let bundleID := get source "bundleID" in
      let found := getBundle stuff bundleID in
      let log1 := log ++ [GetBundle bundleID] in
      if truthy found then
        if String.eqb (typeof found) "object"
        then (inr (found, "from bundleID: " +:+ js_to_string bundleID), log1)
        else (inl BundleNotObject, log1)
      else (inl (UnknownBundleID bundleID), log1)
    else (inl BrokenSource, log).
Proof.
  unfold resolveSource. run_M.
  destruct (has_prop "bundle" source); cbn.
  { by destruct (String.eqb _ _). }
  destruct (has_prop "bundleName" source); cbn.
  { destruct (truthy _); [|done]. by destruct (String.eqb _ _). }
  destruct (has_prop "bundleID" source); cbn; [|done].
  destruct (truthy _); [|done]. by destruct (String.eqb _ _).
Qed.

(** [create] once the source is resolved: the options are checked, then
    the collaborators are called in the order of the program. *)
Lemma create_resolved vatID source translators options isDynamic log bundle desc log1 :
  resolveSource stuff source log = (inr (bundle, desc), log1) →
  create stuff vatID source translators options isDynamic log =
    if forallb (λ name, bool_decide (name ∈ allowedOptions isDynamic))
               (map fst (map_to_list options))
    then
      let description := describe options desc in
      let starting := provideVatSlogger stuff vatID isDynamic description
                        (get options "name") bundle (get options "managerType") in
      let managerOptions :=
        composeManagerOptions stuff bundle options (makeSourcedConsole stuff vatID) in
      let handler := buildVatSyscallHandler stuff vatID translators in
      let log2 :=
        log1 ++ [ProvideVatSlogger vatID isDynamic description (get options "name")
                   bundle (get options "managerType");
                 MakeSourcedConsole vatID;
                 BuildVatSyscallHandler vatID translators]
             ++ (if truthy starting then [SlogStartup vatID] else [])
             ++ [VatManagerFactory vatID managerOptions handler] in
      match vatManagerFactory stuff vatID managerOptions handler with
      | Fulfilled manager =>
          (inr manager, log2 ++ (if truthy starting then [SlogFinish vatID] else []))
      | Rejected reason => (inl (FactoryRejected reason), log2)
      end
    else (inl UnknownOption, log1).
Proof.
  intros Hres. unfold create, assertKnownOptions, await_vatManagerFactory, allowedOptions.
  run_M. rewrite Hres. cbn.
  destruct (forallb _ _); [|done]. cbn.
  destruct (truthy (provideVatSlogger _ _ _ _ _ _ _)); cbn;
    destruct (vatManagerFactory _ _ _ _); cbn;
    rewrite <- ?app_assoc; cbn; try done.
  all: by rewrite app_nil_r.
Qed.

Lemma create_unresolved vatID source translators options isDynamic log e log1 :
  resolveSource stuff source log = (inl e, log1) →
  create stuff vatID source translators options isDynamic log = (inl e, log1).
Proof. intros Hres. unfold create. run_M. by rewrite Hres. Qed.

Lemma create_same_resolution vatID source source' translators options isDynamic log :
  resolveSource stuff source log = resolveSource stuff source' log →
  create stuff vatID source translators options isDynamic log
  = create stuff vatID source' translators options isDynamic log.
Proof. intros Hres. unfold create. run_M. by rewrite Hres. Qed.

Lemma forms_present_0 (source : obj) :
  forms_present source = 0 ↔
  has_prop "bundle" source = false ∧ has_prop "bundleName" source = false
  ∧ has_prop "bundleID" source = false.
Proof.
  unfold forms_present. cbn [filter list_filter].
  destruct (has_prop "bundle" source), (has_prop "bundleName" source),
    (has_prop "bundleID" source); repeat case_decide; cbn; try done;
    split; try done; intros (? & ? & ?); done.
Qed.

(** Resolving a source only asks the keeper. *)
Lemma resolveSource_log (source : obj) (log : list event) :
  ∃ lookups, (resolveSource stuff source log).2 = log ++ lookups
             ∧ forallb is_lookup lookups = true.
Proof.
  rewrite resolveSource_cases.
  destruct (has_prop "bundle" source).
  { exists []. rewrite app_nil_r. split; [|done]. by destruct (String.eqb _ _). }
  destruct (has_prop "bundleName" source); cbn.
  { exists [GetNamedBundle (get source "bundleName")]. split; [|done].
    destruct (truthy _); [|done]. by destruct (String.eqb _ _). }
  destruct (has_prop "bundleID" source); cbn.
  { exists [GetBundle (get source "bundleID")]. split; [|done].
    destruct (truthy _); [|done]. by destruct (String.eqb _ _). }
  exists []. by rewrite app_nil_r.
Qed.

Lemma resolveSource_not_invalid (source : obj) (log : list event) :
  forms_present source ≠ 0 →
  failure_class (resolveSource stuff source log).1 ≠ Some InvalidSourceError.
Proof.
  rewrite forms_present_0, resolveSource_cases. intros Hforms.
  destruct (has_prop "bundle" source).
  { by destruct (String.eqb _ _). }
  destruct (has_prop "bundleName" source); cbn.
  { destruct (truthy _); [|done]. by destruct (String.eqb _ _). }
  destruct (has_prop "bundleID" source); cbn.
  { destruct (truthy _); [|done]. by destruct (String.eqb _ _). }
  naive_solver.
Qed.

Lemma create_not_invalid vatID source translators options isDynamic log :
  forms_present source ≠ 0 →
  failure_class (create stuff vatID source translators options isDynamic log).1
  ≠ Some InvalidSourceError.
Proof.
  intros Hforms. pose proof (resolveSource_not_invalid source log Hforms) as Hres.
  destruct (resolveSource stuff source log) as [[e|[bundle desc]] log1] eqn:Hr.
  - by rewrite (create_unresolved _ _ _ _ _ _ _ _ Hr).
  - rewrite (create_resolved _ _ _ _ _ _ _ _ _ Hr).
    destruct (forallb _ _); [|done]. cbn.
    by destruct (vatManagerFactory _ _ _ _).
Qed.

Lemma unknown_key_rejected (options : obj) (knownNames : list string) (key : string) :
  is_Some (options !! key) → key ∉ knownNames →
  forallb (λ name, bool_decide (name ∈ knownNames)) (map fst (map_to_list options)) = false.
Proof.
  intros [v Hv] Hkey. apply not_true_is_false. intros Hall.
  rewrite forallb_forall in Hall.
  specialize (Hall key). rewrite bool_decide_eq_true in Hall. apply Hkey, Hall.
  apply list_elem_of_In, list_elem_of_fmap. exists (key, v). split; [done|].
  by apply elem_of_map_to_list.
Qed.

(** Spreads: the later object wins, the earlier one shows through. *)
Lemma spread_override (a b : obj) (k : string) (v : jsval) :
  b !! k = Some v → spread a b !! k = Some v.
Proof. intros Hb. unfold spread. by apply lookup_union_Some_l. Qed.

Lemma spread_base (a b : obj) (k : string) :
  b !! k = None → spread a b !! k = a !! k.
Proof. intros Hb. unfold spread. by rewrite lookup_union_r. Qed.

Lemma spread_lookup (a b : obj) (k : string) (v : jsval) :
  a !! k = Some v → spread a b !! k = Some (default v (b !! k)).
Proof.
  intros Ha. destruct (b !! k) as [w|] eqn:Hb; cbn.
  - by apply spread_override.
  - by rewrite spread_base.
Qed.

(** After the source is resolved the keeper is not asked again. *)
Lemma create_log_after_resolve vatID source translators options isDynamic log :
  ∃ evs, (create stuff vatID source translators options isDynamic log).2
         = (resolveSource stuff source log).2 ++ evs
         ∧ forallb (λ ev, negb (is_lookup ev)) evs = true.
Proof.
  destruct (resolveSource stuff source log) as [[e|[bundle desc]] log1] eqn:Hr.
  - rewrite (create_unresolved _ _ _ _ _ _ _ _ Hr). exists []. by rewrite app_nil_r.
  - rewrite (create_resolved _ _ _ _ _ _ _ _ _ Hr).
    destruct (forallb _ (map fst _)); [|exists []; by rewrite app_nil_r].
    cbn zeta.
    remember (composeManagerOptions stuff bundle options _) as mo eqn:Hmo.
    remember (buildVatSyscallHandler stuff vatID translators) as h eqn:Hh.
    remember (truthy _) as starting eqn:Hstarting.
    remember (describe options desc) as description eqn:Hdescription.
    exists ([ProvideVatSlogger vatID isDynamic description (get options "name")
               bundle (get options "managerType");
             MakeSourcedConsole vatID; BuildVatSyscallHandler vatID translators]
            ++ (if starting then [SlogStartup vatID] else [])
            ++ [VatManagerFactory vatID mo h]
            ++ match vatManagerFactory stuff vatID mo h with
               | Fulfilled _ => if starting then [SlogFinish vatID] else []
               | Rejected _ => []
               end).
    split.
    + destruct (vatManagerFactory stuff vatID mo h); unfold snd;
        rewrite <- ?app_assoc; reflexivity.
    + rewrite !forallb_app.
      destruct (vatManagerFactory stuff vatID mo h), starting; reflexivity.
Qed.

(** C2, as amended.  A source descriptor with none of [bundle],
    [bundleName], [bundleID] makes creation fail with the broken-source
    error (the specification's InvalidSourceError) before any collaborator
    is called; a descriptor with one form or more is never rejected with
    an InvalidSourceError. *)
Theorem create_source_form_check vatID source translators options isDynamic log :
  (forms_present source = 0 →
   create stuff vatID source translators options isDynamic log = (inl BrokenSource, log)
   ∧ classify BrokenSource = InvalidSourceError)
  ∧ (forms_present source ≠ 0 →
     failure_class (create stuff vatID source translators options isDynamic log).1
     ≠ Some InvalidSourceError).
Proof.
  split.
  - intros Hnone. split; [|done]. apply create_unresolved.
    apply forms_present_0 in Hnone as (Hb & Hn & Hi).
    by rewrite resolveSource_cases, Hb, Hn, Hi.
  - apply create_not_invalid.
Qed.

(** C3.  [meterID] is not an allowed static option.  Whenever the options
    bag has a key outside the allow-list of its kind, creation fails and
    nothing but the keeper's look-up has happened (no slogger, no
    manager, so no vat is registered).  The options are validated once
    the source is resolved, and the failure is then the unknown-option
    error (the specification's InvalidOptionError); a source that does
    not resolve has already failed the creation, with its own error. *)
Theorem create_unknown_option vatID source translators options isDynamic log key :
  is_Some (options !! key) → key ∉ allowedOptions isDynamic →
  ("meterID" ∉ allowedOptions false)
  ∧ (create stuff vatID source translators options isDynamic log
     = match resolveSource stuff source log with
       | (inl e, log1) => (inl e, log1)
       | (inr _, log1) => (inl UnknownOption, log1)
       end)
  ∧ classify UnknownOption = InvalidOptionError
  ∧ ∃ lookups,
      (create stuff vatID source translators options isDynamic log).2 = log ++ lookups
      ∧ forallb is_lookup lookups = true.
Proof.
  intros Hkey Hunknown.
  split; [apply (bool_decide_eq_false_1 _); reflexivity|].
  pose proof (unknown_key_rejected options _ key Hkey Hunknown) as Hrej.
  destruct (resolveSource_log source log) as (lookups & Hlog & Hlookups).
  destruct (resolveSource stuff source log) as [[e|[bundle desc]] log1] eqn:Hr.
  - rewrite (create_unresolved _ _ _ _ _ _ _ _ Hr). split; [done|]. split; [done|]. eauto.
  - rewrite (create_resolved _ _ _ _ _ _ _ _ _ Hr), Hrej.
    split; [done|]. split; [done|]. eauto.
Qed.

(** C4.  While the vat-admin root is absent (undefined or null, and the
    same for every other falsy value), [createVatDynamically] fails with
    the precondition error and the log of collaborator calls is as it
    was; when the root is there (a kref is a non-empty string, hence
    truthy) the call is the shared creation path with [isDynamic] true. *)
Theorem createVatDynamically_admin_precondition vatID source translators dynamicOptions log :
  (truthy (vatAdminRootKref stuff) = false →
   createVatDynamically stuff vatID source translators dynamicOptions log
   = (inl NoVatAdminRootKref, log)
   ∧ classify NoVatAdminRootKref = PreconditionError)
  ∧ (truthy (vatAdminRootKref stuff) = true →
     createVatDynamically stuff vatID source translators dynamicOptions log
     = create stuff vatID source translators (default ∅ dynamicOptions) true log).
Proof.
  unfold createVatDynamically. run_M. split.
  - by intros ->.
  - by intros ->.
Qed.

(** C5.  When the underlying creation fails, with whatever error and
    after whatever calls, [recreateDynamicVat] and [recreateStaticVat]
    call [panic] with that error and then fail with the same error. *)
Theorem recreate_failure_panics vatID source translators options log err log' :
  (create stuff vatID source translators options true log = (inl err, log') →
   recreateDynamicVat stuff vatID source translators options log
   = (inl err, log' ++ [Panic ("unable to re-create vat " +:+ vatID) err]))
  ∧ (create stuff vatID source translators options false log = (inl err, log') →
     recreateStaticVat stuff vatID source translators options log
     = (inl err, log' ++ [Panic ("unable to re-create vat " +:+ vatID) err])).
Proof.
  unfold recreateDynamicVat, recreateStaticVat. run_M.
  split; intros ->; done.
Qed.

(** C6.  A source descriptor whose form is a [bundleName] (or, with no
    [bundleName], a [bundleID]) that the keeper does not know makes
    creation fail with the unknown-bundle error; the look-up is the only
    call made, so no manager is constructed. *)
Theorem create_unknown_bundle vatID source translators options isDynamic log :
  has_prop "bundle" source = false →
  (has_prop "bundleName" source = true →
   not_nullish (getNamedBundle stuff (get source "bundleName")) = false →
   create stuff vatID source translators options isDynamic log
   = (inl (UnknownBundleName (get source "bundleName")),
      log ++ [GetNamedBundle (get source "bundleName")])
   ∧ classify (UnknownBundleName (get source "bundleName")) = UnknownBundleError)
  ∧ (has_prop "bundleName" source = false → has_prop "bundleID" source = true →
     not_nullish (getBundle stuff (get source "bundleID")) = false →
     create stuff vatID source translators options isDynamic log
     = (inl (UnknownBundleID (get source "bundleID")),
        log ++ [GetBundle (get source "bundleID")])
     ∧ classify (UnknownBundleID (get source "bundleID")) = UnknownBundleError).
Proof.
  intros Hb. split.
  - intros Hn Habsent. split; [|done]. apply create_unresolved.
    rewrite resolveSource_cases, Hb, Hn. cbn.
    by destruct (getNamedBundle stuff _).
  - intros Hn Hi Habsent. split; [|done]. apply create_unresolved.
    rewrite resolveSource_cases, Hb, Hn, Hi. cbn.
    by destruct (getBundle stuff _).
Qed.

(** C7, as amended.  When the source resolves and the options bag passes
    validation, the manager factory is called with options in which
    every admin-level override has its overriding value, and in which
    [metered], unless overridden, is true exactly when [meterID] is
    truthy. *)
Theorem create_manager_options vatID source translators options isDynamic log
    bundle desc log1 :
  resolveSource stuff source log = (inr (bundle, desc), log1) →
  (assertKnownOptions options (allowedOptions isDynamic) log1).1 = inr () →
  let mo := composeManagerOptions stuff bundle options (makeSourcedConsole stuff vatID) in
  VatManagerFactory vatID mo (buildVatSyscallHandler stuff vatID translators)
  ∈ (create stuff vatID source translators options isDynamic log).2
  ∧ mo !! "metered"
    = Some (default (JBool (truthy (get options "meterID"))) (overrides stuff !! "metered"))
  ∧ ∀ k x, overrides stuff !! k = Some x → mo !! k = Some x.
Proof.
  intros Hres Hknown mo. split; [|split].
  - rewrite (create_resolved _ _ _ _ _ _ _ _ _ Hres).
    unfold assertKnownOptions in Hknown. run_M.
    destruct (forallb _ (map fst _)); [|done]. cbn zeta. fold mo.
    generalize (buildVatSyscallHandler stuff vatID translators) as h. intros h.
    destruct (vatManagerFactory stuff vatID mo h); unfold snd;
      rewrite !elem_of_app, list_elem_of_singleton; auto.
  - unfold mo, composeManagerOptions. by apply spread_lookup.
  - intros k x Hk. by apply spread_override.
Qed.

(** C8, as amended.  [loadTestVat] asks the keeper nothing and calls the
    manager factory with options in which [enableSetup] is true,
    [managerType] is ['local'], [useTranscript] is true and [setup] is
    the caller's function, whatever the creation options say, unless an
    admin-level override sets that key. *)
Theorem loadTestVat_manager_options vatID setup translators creationOptions log :
  let mo := composeTestManagerOptions stuff setup creationOptions in
  (loadTestVat stuff vatID setup translators creationOptions log).2
  = log ++ [BuildVatSyscallHandler vatID translators;
            VatManagerFactory vatID mo (buildVatSyscallHandler stuff vatID translators)]
  ∧ mo !! "enableSetup" = Some (default (JBool true) (overrides stuff !! "enableSetup"))
  ∧ mo !! "managerType" = Some (default (JStr "local") (overrides stuff !! "managerType"))
  ∧ mo !! "useTranscript" = Some (default (JBool true) (overrides stuff !! "useTranscript"))
  ∧ mo !! "setup" = Some (default setup (overrides stuff !! "setup")).
Proof.
  cbn zeta. split.
  - unfold loadTestVat, await_vatManagerFactory. run_M.
    destruct (vatManagerFactory _ _ _ _); cbn; by rewrite <- app_assoc.
  - unfold composeTestManagerOptions, set_prop.
    repeat split; apply spread_lookup; by simplify_map_eq.
Qed.

(** C9.  With the inline [bundle] present, [create] does what it does on
    the descriptor holding that bundle alone, and never asks the keeper;
    without it and with a [bundleName], it does what it does on the
    descriptor holding that name alone, and asks the keeper for the name
    only.  A descriptor with two forms or more is not rejected as an
    invalid source. *)
Theorem create_source_precedence vatID source translators options isDynamic log :
  (has_prop "bundle" source = true →
   create stuff vatID source translators options isDynamic log
   = create stuff vatID {[ "bundle" := get source "bundle" ]} translators options isDynamic log
   ∧ ∃ evs, (create stuff vatID source translators options isDynamic log).2 = log ++ evs
            ∧ forallb (λ ev, negb (is_lookup ev)) evs = true)
  ∧ (has_prop "bundle" source = false → has_prop "bundleName" source = true →
     create stuff vatID source translators options isDynamic log
     = create stuff vatID {[ "bundleName" := get source "bundleName" ]}
         translators options isDynamic log
     ∧ ∃ evs, (create stuff vatID source translators options isDynamic log).2
              = log ++ GetNamedBundle (get source "bundleName") :: evs
              ∧ forallb (λ ev, negb (is_lookup ev)) evs = true)
  ∧ ((2 ≤ forms_present source)%nat →
     failure_class (create stuff vatID source translators options isDynamic log).1
     ≠ Some InvalidSourceError).
Proof.
  destruct (create_log_after_resolve vatID source translators options isDynamic log)
    as (evs & Hlog & Hevs).
  split; [|split].
  - intros Hb. split.
    + apply create_same_resolution. rewrite !resolveSource_cases, Hb.
      unfold has_prop, get. by rewrite lookup_singleton_eq.
    + exists evs. split; [|done]. rewrite Hlog, resolveSource_cases, Hb.
      by destruct (String.eqb _ _).
  - intros Hb Hn. split.
    + apply create_same_resolution. rewrite !resolveSource_cases, Hb, Hn.
      unfold has_prop at 1 2, get at 4 5 6.
      rewrite lookup_singleton_ne by done. by rewrite lookup_singleton_eq.
    + exists evs. split; [|done]. rewrite Hlog, resolveSource_cases, Hb, Hn.
      cbn zeta.
      destruct (truthy _); [destruct (String.eqb _ _)|]; unfold snd;
        by rewrite <- app_assoc.
  - intros Hforms. apply create_not_invalid. lia.
Qed.

(** C10.  [loadTestVat] never fails with an unknown-option error; the
    options it hands to the manager factory have every key of the
    creation options, and the caller's value for each key that is
    neither one of the four forced ones nor overridden. *)
Theorem loadTestVat_no_option_validation vatID setup translators creationOptions log :
  let mo := composeTestManagerOptions stuff setup creationOptions in
  failure_class (loadTestVat stuff vatID setup translators creationOptions log).1
  ≠ Some InvalidOptionError
  ∧ VatManagerFactory vatID mo (buildVatSyscallHandler stuff vatID translators)
    ∈ (loadTestVat stuff vatID setup translators creationOptions log).2
  ∧ (∀ k, is_Some (creationOptions !! k) → is_Some (mo !! k))
  ∧ (∀ k, k ∉ ["setup"; "enableSetup"; "managerType"; "useTranscript"] →
          overrides stuff !! k = None → mo !! k = creationOptions !! k).
Proof.
  cbn zeta. split; [|split; [|split]].
  - unfold loadTestVat, await_vatManagerFactory. run_M.
    by destruct (vatManagerFactory _ _ _ _).
  - unfold loadTestVat, await_vatManagerFactory. run_M.
    destruct (vatManagerFactory _ _ _ _); cbn; set_solver.
  - intros k [v Hv]. unfold composeTestManagerOptions, spread, set_prop.
    rewrite lookup_union. rewrite !lookup_insert. repeat case_decide; rewrite ?Hv.
    all: destruct (overrides stuff !! k); cbn; eauto.
  - intros k Hk Hov. unfold composeTestManagerOptions, set_prop.
    rewrite spread_base by done.
    rewrite !lookup_insert_ne; [done|..]; set_solver.
Qed.

End loader_facts.

(** ** The loader on concrete inputs *)

(** C2: a descriptor with two forms is accepted; the vat is created from
    the inline bundle. *)
Lemma create_two_forms_accepted :
  forms_present twoFormSource = 2
  ∧ (create demoStuff "v1" twoFormSource (JObject 4) ∅ true []).1 = inr (JObject 9).
Proof. split; vm_compute; reflexivity. Qed.

Lemma create_source_form_check_witness :
  (create demoStuff "v1" ∅ (JObject 4) ∅ true [] = (inl BrokenSource, [])
   ∧ classify BrokenSource = InvalidSourceError)
  ∧ failure_class (create demoStuff "v1" twoFormSource (JObject 4) ∅ true []).1
    ≠ Some InvalidSourceError.
Proof.
  split.
  - apply (proj1 (create_source_form_check demoStuff "v1" ∅ (JObject 4) ∅ true [])).
    vm_compute. reflexivity.
  - apply (proj2 (create_source_form_check demoStuff "v1" twoFormSource (JObject 4) ∅ true [])).
    vm_compute. discriminate.
Defined.

Lemma create_unknown_option_witness :
  ("meterID" ∉ allowedOptions false)
  ∧ (create demoStuff "v1" inlineSource (JObject 4) meteredOptions false []
     = match resolveSource demoStuff inlineSource [] with
       | (inl e, log1) => (inl e, log1)
       | (inr _, log1) => (inl UnknownOption, log1)
       end)
  ∧ classify UnknownOption = InvalidOptionError
  ∧ ∃ lookups,
      (create demoStuff "v1" inlineSource (JObject 4) meteredOptions false []).2
      = [] ++ lookups
      ∧ forallb is_lookup lookups = true.
Proof.
  apply (create_unknown_option demoStuff "v1" inlineSource (JObject 4) meteredOptions
           false [] "meterID").
  - exists (JStr "m1"). reflexivity.
  - apply (bool_decide_eq_false_1 _). reflexivity.
Defined.

Lemma createVatDynamically_admin_precondition_witness :
  (createVatDynamically (withoutVatAdmin demoStuff) "v1" inlineSource (JObject 4) None []
   = (inl NoVatAdminRootKref, [])
   ∧ classify NoVatAdminRootKref = PreconditionError)
  ∧ createVatDynamically demoStuff "v1" inlineSource (JObject 4) None []
    = create demoStuff "v1" inlineSource (JObject 4) (default ∅ None) true [].
Proof.
  split.
  - apply (proj1 (createVatDynamically_admin_precondition (withoutVatAdmin demoStuff)
                    "v1" inlineSource (JObject 4) None [])).
    reflexivity.
  - apply (proj2 (createVatDynamically_admin_precondition demoStuff
                    "v1" inlineSource (JObject 4) None [])).
    reflexivity.
Defined.

Lemma recreate_failure_panics_witness :
  recreateDynamicVat demoStuff "v1" inlineSource (JObject 4) bogusOptions []
  = (inl UnknownOption, [] ++ [Panic ("unable to re-create vat " +:+ "v1") UnknownOption])
  ∧ recreateStaticVat demoStuff "v1" inlineSource (JObject 4) meteredOptions []
    = (inl UnknownOption, [] ++ [Panic ("unable to re-create vat " +:+ "v1") UnknownOption]).
Proof.
  split.
  - apply (proj1 (recreate_failure_panics demoStuff "v1" inlineSource (JObject 4)
                    bogusOptions [] UnknownOption [])).
    vm_compute. reflexivity.
  - apply (proj2 (recreate_failure_panics demoStuff "v1" inlineSource (JObject 4)
                    meteredOptions [] UnknownOption [])).
    vm_compute. reflexivity.
Defined.

Lemma create_unknown_bundle_witness :
  (create demoStuff "v1" unknownNameSource (JObject 4) ∅ true []
   = (inl (UnknownBundleName (get unknownNameSource "bundleName")),
      [] ++ [GetNamedBundle (get unknownNameSource "bundleName")])
   ∧ classify (UnknownBundleName (get unknownNameSource "bundleName")) = UnknownBundleError)
  ∧ (create demoStuff "v1" unknownIDSource (JObject 4) ∅ false []
     = (inl (UnknownBundleID (get unknownIDSource "bundleID")),
        [] ++ [GetBundle (get unknownIDSource "bundleID")])
     ∧ classify (UnknownBundleID (get unknownIDSource "bundleID")) = UnknownBundleError).
Proof.
  split.
  - apply (proj1 (create_unknown_bundle demoStuff "v1" unknownNameSource (JObject 4) ∅
                    true [] eq_refl)); reflexivity.
  - apply (proj2 (create_unknown_bundle demoStuff "v1" unknownIDSource (JObject 4) ∅
                    false [] eq_refl)); reflexivity.
Defined.

(** C7: a dynamic vat whose [meterID] is the empty string is created
    unmetered, although its [meterID] is neither null nor undefined. *)
Lemma create_empty_meterID_unmetered :
  not_nullish (get emptyMeterOptions "meterID") = true
  ∧ create demoStuff "v1" inlineSource (JObject 4) emptyMeterOptions true []
    = (inr (JObject 9),
       [ProvideVatSlogger "v1" true "(from source bundle)" JUndefined (JObject 1) JUndefined;
        MakeSourcedConsole "v1";
        BuildVatSyscallHandler "v1" (JObject 4);
        SlogStartup "v1";
        VatManagerFactory "v1"
          (composeManagerOptions demoStuff (JObject 1) emptyMeterOptions (JObject 5))
          (JFunction 6);
        SlogFinish "v1"])
  ∧ composeManagerOptions demoStuff (JObject 1) emptyMeterOptions (JObject 5) !! "metered"
    = Some (JBool false).
Proof. repeat split; vm_compute; reflexivity. Qed.

Lemma create_manager_options_witness :
  let mo := composeManagerOptions (withOverrides xsOverrides demoStuff) (JObject 1)
              meteredOptions
              (makeSourcedConsole (withOverrides xsOverrides demoStuff) "v1") in
  VatManagerFactory "v1" mo
    (buildVatSyscallHandler (withOverrides xsOverrides demoStuff) "v1" (JObject 4))
  ∈ (create (withOverrides xsOverrides demoStuff) "v1" inlineSource (JObject 4)
       meteredOptions true []).2
  ∧ mo !! "metered"
    = Some (default (JBool (truthy (get meteredOptions "meterID")))
              (overrides (withOverrides xsOverrides demoStuff) !! "metered"))
  ∧ ∀ k x, overrides (withOverrides xsOverrides demoStuff) !! k = Some x → mo !! k = Some x.
Proof.
  apply (create_manager_options (withOverrides xsOverrides demoStuff) "v1" inlineSource
           (JObject 4) meteredOptions true [] (JObject 1) "from source bundle" []).
  - vm_compute. reflexivity.
  - vm_compute. reflexivity.
Defined.

(** C8: with a kernel-wide override of [managerType], the test vat's
    manager is not asked to be ['local']. *)
Lemma loadTestVat_override_wins :
  (loadTestVat (withOverrides xsOverrides demoStuff) "v1" (JFunction 7) (JObject 4) ∅ []).2
  = [BuildVatSyscallHandler "v1" (JObject 4);
     VatManagerFactory "v1"
       (composeTestManagerOptions (withOverrides xsOverrides demoStuff) (JFunction 7) ∅)
       (JFunction 6)]
  ∧ composeTestManagerOptions (withOverrides xsOverrides demoStuff) (JFunction 7) ∅
      !! "managerType" = Some (JStr "xs-worker").
Proof. split; vm_compute; reflexivity. Qed.

Lemma create_source_precedence_witness :
  (create demoStuff "v1" twoFormSource (JObject 4) ∅ true []
   = create demoStuff "v1" {[ "bundle" := get twoFormSource "bundle" ]} (JObject 4) ∅ true []
   ∧ ∃ evs, (create demoStuff "v1" twoFormSource (JObject 4) ∅ true []).2 = [] ++ evs
            ∧ forallb (λ ev, negb (is_lookup ev)) evs = true)
  ∧ failure_class (create demoStuff "v1" twoFormSource (JObject 4) ∅ true []).1
    ≠ Some InvalidSourceError.
Proof.
  split.
  - apply (proj1 (create_source_precedence demoStuff "v1" twoFormSource (JObject 4) ∅ true [])).
    reflexivity.
  - apply (proj2 (proj2 (create_source_precedence demoStuff "v1" twoFormSource (JObject 4)
                           ∅ true []))).
    vm_compute. constructor.
Defined.

Lemma loadTestVat_no_option_validation_witness :
  is_Some (composeTestManagerOptions demoStuff (JFunction 7) bogusOptions !! "bogus")
  ∧ composeTestManagerOptions demoStuff (JFunction 7) bogusOptions !! "bogus"
    = bogusOptions !! "bogus".
Proof.
  pose proof (loadTestVat_no_option_validation demoStuff "v1" (JFunction 7) (JObject 4)
                bogusOptions []) as (_ & _ & Hkeys & Hvalues).
  split.
  - apply Hkeys. exists (JNum 1). reflexivity.
  - apply Hvalues.
    + apply (bool_decide_eq_false_1 _). reflexivity.
    + reflexivity.
Defined.

(** * Properties of the kernel model *)

Section kernel_facts.
Import Kernel.
Context {vstate delivery syscall ktables argv : Type} `{EqDecision syscall}.
Context (vat_fresh : string → vstate).
Context (vat_dispatch : string → vstate → delivery → vstate * list syscall).
Context (translate : string → syscall → ktables → ktables * list (string * delivery)).
Context (bootstrap_delivery : argv → delivery).

Abbreviation kernel' := (@kernel vstate delivery syscall ktables).
Abbreviation step' := (step vat_fresh vat_dispatch translate).
Abbreviation steps' := (steps vat_fresh vat_dispatch translate).
Abbreviation replay' := (replay vat_fresh vat_dispatch).
Abbreviation start' := (start vat_fresh vat_dispatch bootstrap_delivery).
Abbreviation consistent' := (consistent vat_fresh vat_dispatch).
Abbreviation same_kernel' := (same_kernel vat_fresh).

(** A crank keeps the vats in memory in line with their transcripts: the
    entry it appends replays to the state the vat was left in. *)
Lemma step_consistent (k : kernel') : consistent' k → consistent' (step' k).1.
Proof.
  intros [Hinit Hrep]. unfold step.
  destruct (runQueue (storage k)) as [|[vatID d] rest] eqn:Hq; [done|].
  destruct (vat_dispatch vatID (vat_state vat_fresh k vatID) d) as [vs' syscalls] eqn:Hd.
  destruct (translate_all _ _ _ _) as [tb' queued]. cbn.
  split; [done|]. intros v.
  unfold transcript_of, vat_state in *. cbn.
  destruct (decide (vatID = v)) as [->|Hne].
  - rewrite !lookup_insert_eq. cbn. rewrite foldl_app. cbn [foldl].
    unfold replay in Hrep. rewrite Hrep. unfold replay_entry. cbn.
    rewrite Hd. by rewrite decide_True.
  - rewrite !lookup_insert_ne by done. apply Hrep.
Qed.

Lemma steps_consistent n (k : kernel') : consistent' k → consistent' (steps' n k).1.
Proof.
  revert k. induction n as [|n IH]; intros k Hk; [done|]. cbn.
  pose proof (step_consistent k Hk) as H1.
  destruct (step' k) as [k1 out]. specialize (IH k1 H1).
  by destruct (steps' n k1).
Qed.

(** A crank depends on the storage and on the states of the vats only. *)
Lemma step_same_kernel (k k' : kernel') :
  same_kernel' k k' → same_kernel' (step' k).1 (step' k').1 ∧ (step' k).2 = (step' k').2.
Proof.
  intros [Hs Hv]. unfold step. rewrite <- Hs.
  destruct (runQueue (storage k)) as [|[vatID d] rest]; [done|].
  rewrite <- Hv.
  destruct (vat_dispatch vatID (vat_state vat_fresh k vatID) d) as [vs' syscalls].
  destruct (translate_all _ _ _ _) as [tb' queued]. cbn.
  split; [|done]. split; [done|]. intros v. unfold vat_state in *. cbn.
  destruct (decide (vatID = v)) as [->|Hne].
  - by rewrite !lookup_insert_eq.
  - rewrite !lookup_insert_ne by done. apply Hv.
Qed.

Lemma steps_same_kernel n (k k' : kernel') :
  same_kernel' k k' →
  same_kernel' (steps' n k).1 (steps' n k').1 ∧ (steps' n k).2 = (steps' n k').2.
Proof.
  revert k k'. induction n as [|n IH]; intros k k' Hk; [done|]. cbn.
  destruct (step_same_kernel k k' Hk) as [H1 H2].
  destruct (step' k) as [k1 out], (step' k') as [k1' out']. cbn in *. subst out'.
  destruct (IH k1 k1' H1) as [H3 H4].
  destruct (steps' n k1), (steps' n k1'). cbn in *. by subst.
Qed.

Lemma steps_add n m (k : kernel') :
  steps' (n + m) k
  = ((steps' m (steps' n k).1).1, (steps' n k).2 ++ (steps' m (steps' n k).1).2).
Proof.
  revert k. induction n as [|n IH]; intros k; cbn.
  - by destruct (steps' m k).
  - destruct (step' k) as [k1 out]. rewrite IH.
    destruct (steps' n k1) as [k2 outs]. cbn. done.
Qed.

Lemma steps_outputs_length n (k : kernel') : length (steps' n k).2 = n.
Proof.
  revert k. induction n as [|n IH]; intros k; [done|]. cbn.
  destruct (step' k) as [k1 out]. specialize (IH k1).
  destruct (steps' n k1). cbn in *. by rewrite IH.
Qed.

(** A started kernel holds, for every vat, the state its transcript
    replays to. *)
Lemma start_consistent s b a (k : kernel') : start' s b a = Some k → consistent' k.
Proof.
  unfold start. case_decide as Hdom; [|done]. intros [= <-].
  split; [cbn; by destruct (initialized s) eqn:Hi|].
  intros v. unfold transcript_of, vat_state. cbn.
  assert (transcripts (if initialized s then s else
             {| initialized := true;
                runQueue := runQueue s ++ [(b, bootstrap_delivery a)];
                tables := tables s; transcripts := transcripts s |}) = transcripts s) as ->
    by by destruct (initialized s).
  rewrite map_lookup_imap.
  destruct (transcripts s !! v) as [es|] eqn:Hes; cbn; [|done].
  destruct (replay' v es) as [vs|] eqn:Hr; [done|].
  exfalso. assert (v ∈ dom (transcripts s)) as Hin by (apply elem_of_dom; eauto).
  rewrite <- Hdom in Hin. apply elem_of_dom in Hin as [x Hx].
  rewrite map_lookup_imap, Hes in Hx. cbn in Hx. congruence.
Qed.

(** Starting on the storage of a consistent kernel succeeds, leaves the
    storage as it is, and rebuilds every vat. *)
Lemma restart_same_kernel (k : kernel') b a :
  consistent' k → ∃ k', start' (storage k) b a = Some k' ∧ same_kernel' k' k.
Proof.
  intros [Hinit Hrep]. unfold start.
  assert (∀ v, map_imap replay' (transcripts (storage k)) !! v
               = (λ _, vat_state vat_fresh k v) <$> transcripts (storage k) !! v) as Hlk.
  { intros v. rewrite map_lookup_imap. specialize (Hrep v).
    unfold transcript_of in Hrep. by destruct (transcripts (storage k) !! v). }
  rewrite decide_True.
  - eexists. split; [done|]. rewrite Hinit. split; [done|].
    intros v. unfold vat_state at 1. cbn. rewrite Hlk.
    specialize (Hrep v). unfold transcript_of in Hrep.
    destruct (transcripts (storage k) !! v) eqn:Hv; cbn; [done|].
    cbn in Hrep. congruence.
  - apply set_eq. intros v. rewrite !elem_of_dom, Hlk.
    destruct (transcripts (storage k) !! v); cbn; split; intros [? ?]; eauto; done.
Qed.

(** C1.  Let a kernel be built on some host storage and stepped [n]
    times.  Building a second kernel on the state captured at that point
    succeeds and leaves that state as it is; from there on, after every
    number [m] of further cranks, the second kernel's persisted state is
    the first kernel's after [n + m] cranks, and the vats of the second
    issued what the vats of the first issued in its cranks [n + 1] to
    [n + m]. *)
Theorem restart_replay_equivalence (s0 : persisted) (a : argv) (k0 : kernel') (n : nat) :
  buildVatController vat_fresh vat_dispatch bootstrap_delivery s0 a = Some k0 →
  ∃ k', buildVatController vat_fresh vat_dispatch bootstrap_delivery
          (state_after vat_fresh vat_dispatch translate n k0) a = Some k'
        ∧ storage k' = state_after vat_fresh vat_dispatch translate n k0
        ∧ ∀ m, state_after vat_fresh vat_dispatch translate m k'
               = state_after vat_fresh vat_dispatch translate (n + m) k0
               ∧ outputs vat_fresh vat_dispatch translate m k'
                 = drop n (outputs vat_fresh vat_dispatch translate (n + m) k0).
Proof.
  unfold buildVatController, state_after, outputs. intros Hstart.
  apply start_consistent in Hstart.
  pose proof (steps_consistent n k0 Hstart) as Hn.
  destruct (restart_same_kernel _ "_bootstrap" a Hn) as (k' & Hk' & Hsame).
  exists k'. split; [done|]. split; [apply Hsame|]. intros m.
  destruct (steps_same_kernel m _ _ Hsame) as [[Hst _] Hout].
  rewrite steps_add. cbn. split; [done|].
  rewrite drop_app_length'; [done|]. by rewrite steps_outputs_length.
Qed.

End kernel_facts.

(** ** The kernel model on the small configuration *)

(** The first six cranks: the totals the vats send on depend on what they
    received before. *)
Example demo_outputs :
  Kernel.outputs Kernel.demo_fresh Kernel.demo_dispatch Kernel.demo_translate 6
    Kernel.genesis_kernel
  = [Some ("_bootstrap", [("alice", 1)]); Some ("alice", [("bob", 1)]);
     Some ("bob", [("alice", 1)]); Some ("alice", [("bob", 2)]);
     Some ("bob", [("alice", 3)]); Some ("alice", [("bob", 5)])].
Proof. vm_compute. reflexivity. Qed.

Lemma restart_replay_equivalence_witness :
  ∃ k', Kernel.buildVatController Kernel.demo_fresh Kernel.demo_dispatch
          Kernel.demo_bootstrap
          (Kernel.state_after Kernel.demo_fresh Kernel.demo_dispatch
             Kernel.demo_translate 3 Kernel.genesis_kernel) 1 = Some k'
        ∧ Kernel.storage k'
          = Kernel.state_after Kernel.demo_fresh Kernel.demo_dispatch
              Kernel.demo_translate 3 Kernel.genesis_kernel
        ∧ ∀ m, Kernel.state_after Kernel.demo_fresh Kernel.demo_dispatch
                 Kernel.demo_translate m k'
               = Kernel.state_after Kernel.demo_fresh Kernel.demo_dispatch
                   Kernel.demo_translate (3 + m) Kernel.genesis_kernel
               ∧ Kernel.outputs Kernel.demo_fresh Kernel.demo_dispatch
                   Kernel.demo_translate m k'
                 = drop 3 (Kernel.outputs Kernel.demo_fresh Kernel.demo_dispatch
                             Kernel.demo_translate (3 + m) Kernel.genesis_kernel).
Proof.
  apply (restart_replay_equivalence Kernel.demo_fresh Kernel.demo_dispatch
           Kernel.demo_translate Kernel.demo_bootstrap Kernel.genesis 1
           Kernel.genesis_kernel 3).
  vm_compute. reflexivity.
Defined.

(** * Further properties of the loader *)

Section loader_more.
Context `{RefToString} (stuff : Stuff).

Lemma known_options_iff (options : obj) (knownNames : list string) :
  forallb (λ name, bool_decide (name ∈ knownNames)) (map fst (map_to_list options)) = true
  ↔ ∀ key, is_Some (options !! key) → key ∈ knownNames.
Proof.
  split.
  - intros Hall key Hkey.
    destruct (decide (key ∈ knownNames)) as [|Hnot]; [done|].
    by rewrite (unknown_key_rejected options knownNames key Hkey Hnot) in Hall.
  - intros Hall. apply forallb_forall. intros key Hin.
    apply bool_decide_eq_true, Hall.
    apply list_elem_of_In, list_elem_of_fmap in Hin as ([k v] & -> & Hkv).
    apply elem_of_map_to_list in Hkv. by exists v.
Qed.

(** X1.  [create] returns a manager exactly when the source descriptor
    resolves to a bundle, every key of the options bag is in the
    allow-list of its kind, and the manager factory, called with the
    composed options, fulfils with that manager. *)
Theorem create_succeeds_iff vatID source translators options isDynamic log manager :
  (create stuff vatID source translators options isDynamic log).1 = inr manager
  ↔ ∃ bundle desc log1,
      resolveSource stuff source log = (inr (bundle, desc), log1)
      ∧ (∀ key, is_Some (options !! key) → key ∈ allowedOptions isDynamic)
      ∧ vatManagerFactory stuff vatID
          (composeManagerOptions stuff bundle options (makeSourcedConsole stuff vatID))
          (buildVatSyscallHandler stuff vatID translators)
        = Fulfilled manager.
Proof.
  destruct (resolveSource stuff source log) as [[e|[bundle desc]] log1] eqn:Hr.
  - rewrite (create_unresolved _ _ _ _ _ _ _ _ _ Hr). split; [done|].
    intros (? & ? & ? & ? & _); done.
  - rewrite (create_resolved _ _ _ _ _ _ _ _ _ _ Hr).
    destruct (forallb _ (map fst _)) eqn:Hknown; cbn zeta.
    + pose proof (proj1 (known_options_iff _ _) Hknown) as Hall.
      destruct (vatManagerFactory _ _ _ _) eqn:Hf; unfold fst.
      * split.
        -- intros [= ->]. by exists bundle, desc, log1.
        -- intros (b & d & l & [= <- <- <-] & _ & Hf'). rewrite Hf in Hf'.
           by injection Hf' as ->.
      * split; [done|].
        intros (b & d & l & [= <- <- <-] & _ & Hf'). rewrite Hf in Hf'. done.
    + split; [done|]. intros (? & ? & ? & _ & Hall & _).
      apply (proj2 (known_options_iff _ _)) in Hall. congruence.
Qed.

(** Every call of the manager factory made by [create]: for this vat,
    with the composed options, after the source resolved to an object and
    the options passed validation.  [create] never calls [panic]. *)
Lemma create_factory_events vatID source translators options isDynamic log :
  ∃ evs, (create stuff vatID source translators options isDynamic log).2 = log ++ evs
    ∧ (∀ problem err, Panic problem err ∉ evs)
    ∧ ∀ v mo h, VatManagerFactory v mo h ∈ evs →
        v = vatID ∧ h = buildVatSyscallHandler stuff vatID translators
        ∧ (∀ key, is_Some (options !! key) → key ∈ allowedOptions isDynamic)
        ∧ ∃ bundle desc log1,
            resolveSource stuff source log = (inr (bundle, desc), log1)
            ∧ mo = composeManagerOptions stuff bundle options (makeSourcedConsole stuff vatID).
Proof.
  destruct (resolveSource_log stuff source log) as (lookups & Hlog & Hlookups).
  assert (∀ ev, ev ∈ lookups → is_lookup ev = true) as Hlk.
  { intros ev Hin. rewrite forallb_forall in Hlookups. by apply Hlookups, list_elem_of_In. }
  destruct (resolveSource stuff source log) as [[e|[bundle desc]] log1] eqn:Hr;
    unfold snd in Hlog; subst log1.
  - rewrite (create_unresolved _ _ _ _ _ _ _ _ _ Hr). exists lookups.
    split; [done|]. split.
    + intros p e' Hin. by apply Hlk in Hin.
    + intros v mo h Hin. by apply Hlk in Hin.
  - rewrite (create_resolved _ _ _ _ _ _ _ _ _ _ Hr).
    destruct (forallb _ (map fst _)) eqn:Hknown.
    2:{ exists lookups. split; [done|]. split.
        - intros p e' Hin. by apply Hlk in Hin.
        - intros v mo h Hin. by apply Hlk in Hin. }
    pose proof (proj1 (known_options_iff _ _) Hknown) as Hall.
    cbn zeta.
    remember (composeManagerOptions stuff bundle options _) as mo eqn:Hmo.
    remember (buildVatSyscallHandler stuff vatID translators) as h eqn:Hh.
    remember (truthy _) as starting eqn:Hstarting.
    remember (ProvideVatSlogger _ _ _ _ _ _) as slogger eqn:Hslogger.
    exists (lookups ++ [slogger; MakeSourcedConsole vatID;
                        BuildVatSyscallHandler vatID translators]
             ++ (if starting then [SlogStartup vatID] else [])
             ++ [VatManagerFactory vatID mo h]
             ++ match vatManagerFactory stuff vatID mo h with
                | Fulfilled _ => if starting then [SlogFinish vatID] else []
                | Rejected _ => []
                end).
    split; [|split].
    + destruct (vatManagerFactory stuff vatID mo h); unfold snd;
        rewrite <- !app_assoc; reflexivity.
    + intros p e' Hin. rewrite !elem_of_app in Hin.
      destruct Hin as [Hin|[Hin|[Hin|[Hin|Hin]]]].
      * by apply Hlk in Hin.
      * rewrite !elem_of_cons, elem_of_nil in Hin. subst slogger.
        destruct Hin as [?|[?|[?|?]]]; done.
      * destruct starting; [|by apply elem_of_nil in Hin].
        by apply list_elem_of_singleton in Hin.
      * by apply list_elem_of_singleton in Hin.
      * destruct (vatManagerFactory stuff vatID mo h), starting;
          try (by apply elem_of_nil in Hin).
        by apply list_elem_of_singleton in Hin.
    + intros v mo' h' Hin. rewrite !elem_of_app in Hin.
      destruct Hin as [Hin|[Hin|[Hin|[Hin|Hin]]]].
      * by apply Hlk in Hin.
      * rewrite !elem_of_cons, elem_of_nil in Hin. subst slogger.
        destruct Hin as [?|[?|[?|?]]]; done.
      * destruct starting; [|by apply elem_of_nil in Hin].
        by apply list_elem_of_singleton in Hin.
      * apply list_elem_of_singleton in Hin. injection Hin as -> -> ->.
        split; [done|]. split; [done|]. split; [done|]. by exists bundle, desc, (log ++ lookups).
      * destruct (vatManagerFactory stuff vatID mo h), starting;
          try (by apply elem_of_nil in Hin).
        by apply list_elem_of_singleton in Hin.
Qed.

(** What a resolved source resolves to. *)
Lemma resolveSource_object source log bundle desc log1 :
  resolveSource stuff source log = (inr (bundle, desc), log1) →
  typeof bundle = "object"
  ∧ (has_prop "bundle" source = false → truthy bundle = true).
Proof.
  rewrite resolveSource_cases.
  destruct (has_prop "bundle" source).
  { destruct (String.eqb _ _) eqn:Heq; [|done]. intros [= <- <- <-].
    split; [by apply String.eqb_eq|done]. }
  destruct (has_prop "bundleName" source); cbn zeta.
  { destruct (truthy _) eqn:Ht; [|done].
    destruct (String.eqb _ _) eqn:Heq; [|done]. intros [= <- <- <-].
    split; [by apply String.eqb_eq|done]. }
  destruct (has_prop "bundleID" source); cbn zeta; [|done].
  destruct (truthy _) eqn:Ht; [|done].
  destruct (String.eqb _ _) eqn:Heq; [|done]. intros [= <- <- <-].
  split; [by apply String.eqb_eq|done].
Qed.


Lemma recreate_events isDynamic vatID source translators options log :
  (catch (create stuff vatID source translators options isDynamic)
         (λ err, call (Panic ("unable to re-create vat " +:+ vatID) err) ();;
                 throw err) log).2
  = (create stuff vatID source translators options isDynamic log).2
    ++ match (create stuff vatID source translators options isDynamic log).1 with
       | inl err => [Panic ("unable to re-create vat " +:+ vatID) err]
       | inr _ => []
       end.
Proof.
  run_M. destruct (create _ _ _ _ _ _ _) as [[e|m] log']; cbn; [done|].
  by rewrite app_nil_r.
Qed.

(** X2.  Static vats are never metered: in every call of the manager
    factory that [recreateStaticVat] makes, [metered] is false unless an
    override sets it. *)
Theorem static_vats_never_metered vatID source translators staticOptions log :
  ∃ evs, (recreateStaticVat stuff vatID source translators staticOptions log).2 = log ++ evs
    ∧ ∀ v mo h, VatManagerFactory v mo h ∈ evs →
        mo !! "metered" = Some (default (JBool false) (overrides stuff !! "metered")).
Proof.
  unfold recreateStaticVat. rewrite recreate_events.
  destruct (create_factory_events vatID source translators staticOptions false log)
    as (evs & -> & _ & Hcalls).
  eexists. rewrite <- app_assoc. split; [done|].
  intros v mo h Hin. apply elem_of_app in Hin as [Hin|Hin].
  2:{ destruct (create _ _ _ _ _ _ _).1; [|by apply elem_of_nil in Hin].
      by apply list_elem_of_singleton in Hin. }
  destruct (Hcalls v mo h Hin) as (_ & _ & Hall & bundle & desc & log1 & _ & ->).
  unfold composeManagerOptions.
  assert (get staticOptions "meterID" = JUndefined) as ->.
  { unfold get. destruct (staticOptions !! "meterID") as [x|] eqn:Hm; [|done].
    exfalso. assert ("meterID" ∈ allowedOptions false) as Hin' by (apply Hall; eauto).
    revert Hin'. apply (bool_decide_eq_false_1 _). reflexivity. }
  by apply spread_lookup.
Qed.

(** X3.  The manager factory is called only for the vat being created,
    only when every option key is allowed, and (no override of [bundle]
    apart) only with a bundle whose [typeof] is object, which is
    moreover truthy when it came from the keeper. *)
Theorem create_factory_call_guarded vatID source translators options isDynamic log :
  ∃ evs, (create stuff vatID source translators options isDynamic log).2 = log ++ evs
    ∧ ∀ v mo h, VatManagerFactory v mo h ∈ evs →
        v = vatID
        ∧ (∀ key, is_Some (options !! key) → key ∈ allowedOptions isDynamic)
        ∧ (overrides stuff !! "bundle" = None →
           ∃ bundle, mo !! "bundle" = Some bundle ∧ typeof bundle = "object"
                     ∧ (has_prop "bundle" source = false → truthy bundle = true)).
Proof.
  destruct (create_factory_events vatID source translators options isDynamic log)
    as (evs & Hlog & _ & Hcalls).
  exists evs. split; [done|]. intros v mo h Hin.
  destruct (Hcalls v mo h Hin) as (-> & _ & Hall & bundle & desc & log1 & Hres & ->).
  split; [done|]. split; [done|]. intros Hov.
  exists bundle. destruct (resolveSource_object _ _ _ _ _ Hres) as [Hobj Htruthy].
  split; [|done]. unfold composeManagerOptions. by rewrite spread_base.
Qed.

(** X4.  [create] never calls [panic]; [recreateDynamicVat] and
    [recreateStaticVat] call it exactly when they fail. *)
Theorem panic_only_on_failed_recreation vatID source translators options isDynamic log :
  (∃ evs, (create stuff vatID source translators options isDynamic log).2 = log ++ evs
          ∧ ∀ problem err, Panic problem err ∉ evs)
  ∧ (∃ evs, (recreateDynamicVat stuff vatID source translators options log).2 = log ++ evs
            ∧ ((∃ problem err, Panic problem err ∈ evs)
               ↔ ∃ err, (recreateDynamicVat stuff vatID source translators options log).1
                        = inl err))
  ∧ (∃ evs, (recreateStaticVat stuff vatID source translators options log).2 = log ++ evs
            ∧ ((∃ problem err, Panic problem err ∈ evs)
               ↔ ∃ err, (recreateStaticVat stuff vatID source translators options log).1
                        = inl err)).
Proof.
  assert (∀ dyn, ∃ evs,
            (catch (create stuff vatID source translators options dyn)
               (λ err, call (Panic ("unable to re-create vat " +:+ vatID) err) ();;
                       throw err) log).2 = log ++ evs
            ∧ ((∃ problem err, Panic problem err ∈ evs)
               ↔ ∃ err, (catch (create stuff vatID source translators options dyn)
                           (λ err, call (Panic ("unable to re-create vat " +:+ vatID) err) ();;
                                   throw err) log).1 = inl err)) as Hre.
  { intros dyn. rewrite recreate_events.
    destruct (create_factory_events vatID source translators options dyn log)
      as (evs & Hlog & Hnopanic & _).
    rewrite Hlog. eexists. rewrite <- app_assoc. split; [done|].
    run_M. destruct (create _ _ _ _ _ _ _) as [[e|m] log'] eqn:Hc; cbn.
    - split; [eauto|]. intros _. exists ("unable to re-create vat " +:+ vatID), e.
      apply elem_of_app. right. by apply list_elem_of_singleton.
    - split; [|by intros [? ?]]. intros (p & e & Hin).
      rewrite app_nil_r in Hin. by apply Hnopanic in Hin. }
  split; [|split].
  - destruct (create_factory_events vatID source translators options isDynamic log)
      as (evs & Hlog & Hnopanic & _). eauto.
  - apply (Hre true).
  - apply (Hre false).
Qed.


(** X5.  The start of a vat is bracketed in the slog.  When [create]
    fails the finish marker is never written, and a start marker, if
    written, is followed by the call of the manager factory and nothing
    else; when [create] succeeds its calls end with the start marker, the
    call of the factory and the finish marker, or neither marker is
    written. *)
Theorem create_startup_bracket vatID source translators options isDynamic log :
  ∃ evs, (create stuff vatID source translators options isDynamic log).2 = log ++ evs
    ∧ (∀ err, (create stuff vatID source translators options isDynamic log).1 = inl err →
         (SlogFinish vatID ∉ evs)
         ∧ (SlogStartup vatID ∈ evs →
            ∃ pre mo h, evs = pre ++ [SlogStartup vatID; VatManagerFactory vatID mo h]))
    ∧ (∀ manager, (create stuff vatID source translators options isDynamic log).1 = inr manager →
         (∃ pre mo h, evs = pre ++ [SlogStartup vatID; VatManagerFactory vatID mo h;
                                    SlogFinish vatID])
         ∨ ((SlogStartup vatID ∉ evs) ∧ (SlogFinish vatID ∉ evs))).
Proof.
  destruct (resolveSource_log stuff source log) as (lookups & Hlog & Hlookups).
  assert (∀ ev, ev ∈ lookups → is_lookup ev = true) as Hlk.
  { intros ev Hin. rewrite forallb_forall in Hlookups. by apply Hlookups, list_elem_of_In. }
  destruct (resolveSource stuff source log) as [[e|[bundle desc]] log1] eqn:Hr;
    unfold snd in Hlog; subst log1.
  - rewrite (create_unresolved _ _ _ _ _ _ _ _ _ Hr). exists lookups.
    split; [done|]. split; [|done]. intros err _. split.
    + intros Hin. by apply Hlk in Hin.
    + intros Hin. by apply Hlk in Hin.
  - rewrite (create_resolved _ _ _ _ _ _ _ _ _ _ Hr).
    destruct (forallb _ (map fst _)) eqn:Hknown.
    2:{ exists lookups. split; [done|]. split; [|done]. intros err _. split.
        - intros Hin. by apply Hlk in Hin.
        - intros Hin. by apply Hlk in Hin. }
    cbn zeta.
    remember (composeManagerOptions stuff bundle options _) as mo eqn:Hmo.
    remember (buildVatSyscallHandler stuff vatID translators) as h eqn:Hh.
    remember (truthy _) as starting eqn:Hstarting.
    remember (ProvideVatSlogger _ _ _ _ _ _) as slogger eqn:Hslogger.
    set (pre := lookups ++ [slogger; MakeSourcedConsole vatID;
                            BuildVatSyscallHandler vatID translators]).
    assert ((SlogStartup vatID ∉ pre) ∧ (SlogFinish vatID ∉ pre)) as [Hpre1 Hpre2].
    { unfold pre. split; intros Hin; apply elem_of_app in Hin as [Hin|Hin];
        try (by apply Hlk in Hin);
        rewrite !elem_of_cons, elem_of_nil in Hin; subst slogger;
        destruct Hin as [?|[?|[?|?]]]; done. }
    exists (pre ++ (if starting then [SlogStartup vatID] else [])
             ++ [VatManagerFactory vatID mo h]
             ++ match vatManagerFactory stuff vatID mo h with
                | Fulfilled _ => if starting then [SlogFinish vatID] else []
                | Rejected _ => []
                end).
    split; [|split].
    + unfold pre. destruct (vatManagerFactory stuff vatID mo h); unfold snd;
        rewrite <- !app_assoc; reflexivity.
    + intros err Herr. destruct (vatManagerFactory stuff vatID mo h); [done|].
      split.
      * rewrite !elem_of_app. intros [Hin|[Hin|[Hin|Hin]]]; [done|..].
        -- destruct starting; [|by apply elem_of_nil in Hin].
           by apply list_elem_of_singleton in Hin.
        -- by apply list_elem_of_singleton in Hin.
        -- by apply elem_of_nil in Hin.
      * intros Hin. exists pre, mo, h. destruct starting; [done|].
        exfalso. rewrite !elem_of_app in Hin.
        destruct Hin as [Hin|[Hin|[Hin|Hin]]]; [done|..].
        -- by apply elem_of_nil in Hin.
        -- by apply list_elem_of_singleton in Hin.
        -- by apply elem_of_nil in Hin.
    + intros manager Hok. destruct (vatManagerFactory stuff vatID mo h); [|done].
      destruct starting.
      * left. by exists pre, mo, h.
      * right. split; rewrite !elem_of_app; intros [Hin|[Hin|[Hin|Hin]]]; try done;
          try (by apply elem_of_nil in Hin); by apply list_elem_of_singleton in Hin.
Qed.

(** X6.  The options composed for the manager factory have the ten keys
    of the literal and those of the overrides, no others: [description],
    [meterID] and [reapInterval] reach the factory only through an
    override. *)
Theorem manager_option_keys bundle options console :
  dom (composeManagerOptions stuff bundle options console)
  = list_to_set ["managerType"; "bundle"; "metered"; "enableDisavow"; "enableSetup";
                 "enablePipelining"; "sourcedConsole"; "virtualObjectCacheSize";
                 "useTranscript"; "name"] ∪ dom (overrides stuff)
  ∧ ∀ key, key ∈ ["description"; "meterID"; "reapInterval"] →
           composeManagerOptions stuff bundle options console !! key
           = overrides stuff !! key.
Proof.
  unfold composeManagerOptions, spread. split.
  - rewrite dom_union_L, dom_list_to_map_L. apply (comm_L (∪)).
  - intros key Hkey. rewrite lookup_union.
    assert (∀ (l : list (string * jsval)), key ∉ l.*1 → (list_to_map l : obj) !! key = None)
      as Hnone by (intros l; apply not_elem_of_list_to_map_1).
    rewrite Hnone.
    + by destruct (overrides stuff !! key).
    + cbn [fmap list_fmap fst].
      rewrite !elem_of_cons, elem_of_nil in Hkey.
      destruct Hkey as [->|[->|[->|[]]]]; apply (bool_decide_eq_false_1 _); reflexivity.
Qed.

End loader_more.

(** ** The description of a vat *)

Lemma string_app_assoc (a b c : string) : (a +:+ b) +:+ c = a +:+ b +:+ c.
Proof.
  induction a as [|x a IH]; [done|].
  change (String x ((a +:+ b) +:+ c) = String x (a +:+ b +:+ c)). by rewrite IH.
Qed.

Lemma string_rev_onto_app (acc a b : string) :
  string_rev_onto acc (a +:+ b) = string_rev_onto (string_rev_onto acc a) b.
Proof. revert acc. induction a as [|c a IH]; intros acc; [done|]. apply IH. Qed.

Lemma string_rev_onto_reverse (acc s : string) :
  string_rev_onto acc s = string_reverse s +:+ acc.
Proof.
  unfold string_reverse. revert acc. induction s as [|c s IH]; intros acc; [done|].
  cbn. rewrite IH, (IH (String c "")).
  by rewrite string_app_assoc.
Qed.

Lemma string_reverse_snoc (s : string) (c : ascii) :
  string_reverse (s +:+ String c "") = String c (string_reverse s).
Proof. unfold string_reverse. by rewrite string_rev_onto_app. Qed.

Lemma string_reverse_cons (s : string) (c : ascii) :
  string_reverse (String c s) = string_reverse s +:+ String c "".
Proof. unfold string_reverse at 1. cbn. apply string_rev_onto_reverse. Qed.

Lemma string_reverse_involutive (s : string) : string_reverse (string_reverse s) = s.
Proof.
  induction s as [|c s IH]; [done|].
  by rewrite string_reverse_cons, string_reverse_snoc, IH.
Qed.

(** A byte below 128 is a character of its own: it is no part of the
    white space beyond ASCII. *)
Lemma ascii_not_space2 (a b : ascii) :
  (N_of_ascii a < 128)%N ∨ (N_of_ascii b < 128)%N → is_space2 a b = false.
Proof.
  intros Hlow. apply bool_decide_eq_false_2. unfold space2.
  rewrite !elem_of_cons, elem_of_nil. intros Hin.
  repeat (destruct Hin as [Hin|Hin];
          [injection Hin as -> ->; by destruct Hlow|]).
  done.
Qed.

Lemma ascii_not_space3 (a b c : ascii) :
  (N_of_ascii a < 128)%N ∨ (N_of_ascii b < 128)%N ∨ (N_of_ascii c < 128)%N →
  is_space3 a b c = false.
Proof.
  intros Hlow. apply bool_decide_eq_false_2. unfold space3.
  rewrite !elem_of_cons, elem_of_nil. intros Hin.
  repeat (destruct Hin as [Hin|Hin];
          [injection Hin as -> -> ->; by destruct Hlow as [?|[?|?]]|]).
  done.
Qed.

(** [trim_start] stops at a character below 128 that is not white space. *)
Lemma trim_start_stops (c : ascii) (s : string) :
  is_space c = false → (N_of_ascii c < 128)%N →
  trim_start (String c s) = String c s.
Proof.
  intros Hc Hlow. destruct s as [|b [|d s3]]; cbn [trim_start]; rewrite Hc; [done|..].
  - by rewrite ascii_not_space2 by auto.
  - rewrite ascii_not_space2 by auto. by rewrite ascii_not_space3 by auto.
Qed.

Lemma trim_reversed_stops (c : ascii) (r : string) :
  is_space c = false → (N_of_ascii c < 128)%N →
  trim_reversed (String c r) = String c r.
Proof.
  intros Hc Hlow. destruct r as [|b [|d r3]]; cbn [trim_reversed]; rewrite Hc; [done|..].
  - by rewrite ascii_not_space2 by auto.
  - rewrite ascii_not_space2 by auto. by rewrite ascii_not_space3 by auto.
Qed.

(** Leading white space is all [trim_start] removes: a character below
    128 that is not white space stays, with what follows it. *)
Lemma trim_start_keeps (a b : string) (c : ascii) :
  is_space c = false → (N_of_ascii c < 128)%N →
  ∃ p, trim_start (a +:+ String c b) = p +:+ String c b.
Proof.
  intros Hc Hlow.
  assert (∀ n a, (String.length a ≤ n)%nat →
            ∃ p, trim_start (a +:+ String c b) = p +:+ String c b) as Hind;
    [|by apply (Hind (String.length a))].
  clear a. intros n. induction n as [|n IH]; intros a Hlen.
  { destruct a; [|cbn in Hlen; lia]. exists "".
    change (trim_start (String c b) = String c b). by apply trim_start_stops. }
  destruct a as [|x a1].
  { exists "". change (trim_start (String c b) = String c b). by apply trim_start_stops. }
  cbn in Hlen.
  change (String x a1 +:+ String c b) with (String x (a1 +:+ String c b)).
  cbn [trim_start]. destruct (is_space x); [apply IH; lia|].
  destruct a1 as [|y a2].
  { change ("" +:+ String c b) with (String c b). cbn iota.
    rewrite ascii_not_space2 by auto. exists (String x "").
    destruct b as [|d b']; [done|]. by rewrite ascii_not_space3 by auto. }
  cbn in Hlen.
  change (String y a2 +:+ String c b) with (String y (a2 +:+ String c b)). cbn iota.
  destruct (is_space2 x y); [apply IH; lia|].
  destruct a2 as [|z a3].
  { change ("" +:+ String c b) with (String c b). cbn iota.
    rewrite ascii_not_space3 by auto. by exists (String x (String y "")). }
  cbn in Hlen.
  change (String z a3 +:+ String c b) with (String z (a3 +:+ String c b)). cbn iota.
  destruct (is_space3 x y z); [apply IH; lia|].
  by exists (String x (String y (String z a3))).
Qed.

(** A string that ends with such a character loses nothing at its end. *)
Lemma trim_ends_nonspace (s : string) (c : ascii) :
  is_space c = false → (N_of_ascii c < 128)%N →
  trim (s +:+ String c "") = trim_start (s +:+ String c "").
Proof.
  intros Hc Hlow. unfold trim.
  destruct (trim_start_keeps s "" c Hc Hlow) as [p ->].
  rewrite string_reverse_snoc, trim_reversed_stops by done.
  by rewrite <- string_reverse_snoc, string_reverse_involutive.
Qed.

(** X7.  The description of a vat ends with the description of its
    source in parentheses, and is just that when the options give no
    (or a falsy) description. *)
Theorem describe_ends_with_source `{RefToString} (options : obj) (sourceDesc : string) :
  (∃ p, describe options sourceDesc = p +:+ "(" +:+ sourceDesc +:+ ")")
  ∧ (truthy (get options "description") = false →
     describe options sourceDesc = "(" +:+ sourceDesc +:+ ")").
Proof.
  unfold describe.
  assert (∀ d, trim (d +:+ " (" +:+ sourceDesc +:+ ")")
               = trim_start (d +:+ " (" +:+ sourceDesc +:+ ")")) as Htrim.
  { intros d.
    replace (d +:+ " (" +:+ sourceDesc +:+ ")")
      with ((d +:+ " (" +:+ sourceDesc) +:+ String ")" "")
      by (by rewrite !string_app_assoc).
    by apply trim_ends_nonspace. }
  split.
  - rewrite Htrim.
    generalize (js_to_string (js_or (get options "description") (JStr ""))). intros d.
    replace (d +:+ " (" +:+ sourceDesc +:+ ")")
      with ((d +:+ " ") +:+ String "(" (sourceDesc +:+ ")"))
      by (by rewrite !string_app_assoc).
    by apply trim_start_keeps.
  - intros Hfalsy. unfold js_or. rewrite Hfalsy. rewrite Htrim.
    change (trim_start (String "(" (sourceDesc +:+ ")")) = String "(" (sourceDesc +:+ ")")).
    by apply trim_start_stops.
Qed.

(** * Properties of the configuration loader and the controller *)

Section controller_strings.
Import Controller.

Lemma chars_app (a b : string) : chars (a +:+ b) = chars a ++ chars b.
Proof.
  unfold chars. induction a as [|x a IH]; [done|].
  change (x :: list_ascii_of_string (a +:+ b) = x :: (list_ascii_of_string a ++ list_ascii_of_string b)).
  by rewrite IH.
Qed.

Lemma chars_inj (a b : string) : chars a = chars b → a = b.
Proof.
  unfold chars. intros Heq.
  by rewrite <- (string_of_list_ascii_of_string a), Heq, string_of_list_ascii_of_string.
Qed.

Lemma startsWith_spec (s p : string) : startsWith s p = true ↔ ∃ t, s = p +:+ t.
Proof.
  unfold startsWith. rewrite bool_decide_eq_true. split.
  - intros [k Hk]. exists (string_of_list_ascii k). apply chars_inj.
    rewrite chars_app. unfold chars at 3. by rewrite list_ascii_of_string_of_list_ascii.
  - intros [t ->]. rewrite chars_app. by eexists.
Qed.

Lemma endsWith_spec (s p : string) : endsWith s p = true ↔ ∃ t, s = t +:+ p.
Proof.
  unfold endsWith. rewrite bool_decide_eq_true. split.
  - intros [k Hk]. exists (string_of_list_ascii k). apply chars_inj.
    rewrite chars_app. unfold chars at 2. by rewrite list_ascii_of_string_of_list_ascii.
  - intros [t ->]. rewrite chars_app. by eexists.
Qed.

Lemma slice_middle (p n q : string) :
  slice (p +:+ n +:+ q) (String.length p) (String.length q) = n.
Proof.
  unfold slice. rewrite !chars_app, !length_app.
  assert (∀ s, String.length s = length (chars s)) as Hlen.
  { intros s. unfold chars. induction s; cbn; auto. }
  rewrite !Hlen. rewrite drop_app_length.
  replace (length (chars p) + (length (chars n) + length (chars q))
           - length (chars q) - length (chars p)) with (length (chars n)) by lia.
  rewrite take_app_length. apply string_of_list_ascii_of_string.
Qed.

(** A file name is taken for a vat exactly when it is [vat-NAME.js]; the
    vat is then called NAME. *)
Lemma vat_file_name (s : string) :
  startsWith s "vat-" = true ∧ endsWith s ".js" = true
  ↔ ∃ n, s = "vat-" +:+ n +:+ ".js".
Proof.
  split.
  - intros [Hp Hs]. apply startsWith_spec in Hp as [t ->].
    apply endsWith_spec in Hs as [u Hu].
    assert (∃ n, t = n +:+ ".js") as [n ->]; [|by exists n].
    apply (f_equal chars) in Hu. rewrite !chars_app in Hu.
    apply (f_equal reverse) in Hu. rewrite !reverse_app in Hu.
    destruct (reverse (chars t)) as [|a [|b [|c r]]] eqn:Ht; try done.
    injection Hu as -> -> -> _.
    exists (string_of_list_ascii (reverse r)). apply chars_inj.
    rewrite chars_app. unfold chars at 2. rewrite list_ascii_of_string_of_list_ascii.
    apply (f_equal reverse) in Ht. rewrite reverse_involutive in Ht. rewrite Ht.
    by rewrite !reverse_cons, <- !app_assoc.
  - intros [n ->]. split.
    + apply startsWith_spec. by eexists.
    + apply endsWith_spec. exists ("vat-" +:+ n). by rewrite string_app_assoc.
Qed.

Lemma js_file_not_backup (s : string) : endsWith s ".js" = true → endsWith s "~" = false.
Proof.
  intros Hjs. apply not_true_is_false. intros Hb.
  apply endsWith_spec in Hjs as [t ->]. apply endsWith_spec in Hb as [u Hu].
  apply (f_equal chars) in Hu. rewrite !chars_app in Hu.
  apply (f_equal reverse) in Hu. rewrite !reverse_app in Hu. done.
Qed.

Lemma Map_get_set (k k' v : string) (m : list (string * string)) :
  Map_get k' (Map_set k v m) = if decide (k' = k) then Some v else Map_get k' m.
Proof.
  induction m as [|[k0 v0] m IH]; cbn.
  - by destruct (decide (k' = k)).
  - destruct (decide (k = k0)) as [->|Hne]; cbn.
    + by destruct (decide (k' = k0)).
    + destruct (decide (k' = k0)) as [->|Hne'].
      * by rewrite decide_False.
      * done.
Qed.

Lemma Map_keys_set (k v : string) (m : list (string * string)) (k' : string) :
  k' ∈ Map_keys (Map_set k v m) ↔ k' = k ∨ k' ∈ Map_keys m.
Proof.
  unfold Map_keys. induction m as [|[k0 v0] m IH]; cbn.
  - rewrite list_elem_of_singleton, elem_of_nil. tauto.
  - destruct (decide (k = k0)) as [->|Hne]; cbn; rewrite !elem_of_cons; [tauto|].
    rewrite IH. tauto.
Qed.

Lemma Map_set_NoDup (k v : string) (m : list (string * string)) :
  NoDup (Map_keys m) → NoDup (Map_keys (Map_set k v m)).
Proof.
  unfold Map_keys. induction m as [|[k0 v0] m IH]; cbn; intros Hnd.
  - apply NoDup_singleton.
  - apply NoDup_cons in Hnd as [Hk0 Hnd].
    destruct (decide (k = k0)) as [->|Hne]; cbn.
    + by apply NoDup_cons.
    + apply NoDup_cons. split; [|by apply IH].
      intros Hin. apply (Map_keys_set k v m k0) in Hin as [?|?]; [congruence|done].
Qed.

Lemma Map_get_keys (k : string) (m : list (string * string)) :
  is_Some (Map_get k m) ↔ k ∈ Map_keys m.
Proof.
  unfold Map_keys. induction m as [|[k0 v0] m IH]; cbn.
  - rewrite elem_of_nil. split; [by intros [? ?]|done].
  - rewrite elem_of_cons. destruct (decide (k = k0)) as [->|Hne].
    + split; eauto.
    + rewrite IH. tauto.
Qed.


End controller_strings.

Section loadBasedir_facts.
Import Controller.
Context {E : Type} (resolve : string → string → string).

(** What the entries read so far have put into the vat sources. *)
Lemma loadEntries_sources basedir (subs : list dirent) console :
  let m := (foldl (loadEntry resolve basedir) ([], console) subs).1 in
  NoDup (Map_keys m)
  ∧ ∀ n p, Map_get n m = Some p
           ↔ p = resolve basedir ("vat-" +:+ n +:+ ".js")
             ∧ ∃ d, d ∈ subs ∧ isFile d = true ∧ name d = "vat-" +:+ n +:+ ".js".
Proof.
  cbn zeta. induction subs as [|d subs IH] using rev_ind.
  - cbn. split; [apply NoDup_nil_2|]. intros n p. split; [done|].
    intros (_ & d & Hd & _). by apply elem_of_nil in Hd.
  - rewrite foldl_app. cbn [foldl].
    destruct (foldl _ _ subs) as [m c]. cbn [fst] in *. destruct IH as [Hnd IH].
    unfold loadEntry.
    destruct (endsWith (name d) "~") eqn:Hbackup.
    { cbn [fst]. split; [done|]. intros n p. rewrite IH. split.
      - intros (-> & d' & Hd' & Hf & Hn). split; [done|].
        exists d'. split; [|done]. apply elem_of_app. by left.
      - intros (-> & d' & Hd' & Hf & Hn). split; [done|].
        apply elem_of_app in Hd' as [Hd'|Hd']; [by eauto|].
        apply list_elem_of_singleton in Hd' as ->. exfalso.
        assert (endsWith (name d) ".js" = true) as Hjs.
        { rewrite Hn. apply endsWith_spec. exists ("vat-" +:+ n).
          by rewrite string_app_assoc. }
        apply js_file_not_backup in Hjs. congruence. }
    destruct (startsWith (name d) "vat-" && isFile d && endsWith (name d) ".js") eqn:Hvat.
    + apply andb_true_iff in Hvat as [Hvat Hjs].
      apply andb_true_iff in Hvat as [Hpre Hfile].
      destruct (proj1 (vat_file_name (name d)) (conj Hpre Hjs)) as [n0 Hn0].
      assert (slice (name d) (String.length "vat-") (String.length ".js") = n0) as ->.
      { rewrite Hn0. apply (slice_middle "vat-" n0 ".js"). }
      cbn [fst]. split; [by apply Map_set_NoDup|].
      intros n p. rewrite Map_get_set. destruct (decide (n = n0)) as [->|Hne].
      * split.
        -- intros [= <-]. rewrite Hn0. split; [done|].
           exists d. split; [|done]. apply elem_of_app. right.
           by apply list_elem_of_singleton.
        -- intros (-> & _). by rewrite Hn0.
      * rewrite IH. split.
        -- intros (-> & d' & Hd' & Hf & Hn). split; [done|].
           exists d'. split; [|done]. apply elem_of_app. by left.
        -- intros (-> & d' & Hd' & Hf & Hn). split; [done|].
           apply elem_of_app in Hd' as [Hd'|Hd']; [by eauto|].
           apply list_elem_of_singleton in Hd' as ->. exfalso.
           rewrite Hn0 in Hn. apply String.app_inj in Hn.
           assert (chars (n0 +:+ ".js") = chars (n +:+ ".js")) as Hc by by rewrite Hn.
           rewrite !chars_app in Hc. apply app_inv_tail in Hc.
           apply chars_inj in Hc. congruence.
    + cbn [fst]. split; [done|]. intros n p. rewrite IH. split.
      * intros (-> & d' & Hd' & Hf & Hn). split; [done|].
        exists d'. split; [|done]. apply elem_of_app. by left.
      * intros (-> & d' & Hd' & Hf & Hn). split; [done|].
        apply elem_of_app in Hd' as [Hd'|Hd']; [by eauto|].
        apply list_elem_of_singleton in Hd' as ->. exfalso.
        assert (startsWith (name d) "vat-" = true ∧ endsWith (name d) ".js" = true)
          as [Hp Hs] by (apply vat_file_name; eauto).
        rewrite Hp, Hf, Hs in Hvat. done.
Qed.


(** The run of [loadBasedir] on a readable directory. *)
Lemma loadBasedir_sources (fs : filesystem) (basedir : string) (subs : list dirent) :
  readdirSync fs basedir = Some subs →
  ∃ cfg console m,
    loadBasedir (E:=E) resolve fs basedir = (Some cfg, console)
    ∧ vatSources cfg = Some m
    ∧ NoDup (Map_keys m)
    ∧ (∀ n p, Map_get n m = Some p
              ↔ p = resolve basedir ("vat-" +:+ n +:+ ".js")
                ∧ ∃ d, d ∈ subs ∧ isFile d = true ∧ name d = "vat-" +:+ n +:+ ".js")
    ∧ bootstrapIndexJS cfg
      = (if statSync fs (resolve basedir "bootstrap.js")
         then Some (resolve basedir "bootstrap.js") else None).
Proof.
  intros Hdir. unfold loadBasedir. rewrite Hdir.
  pose proof (loadEntries_sources basedir subs
                ["= loading config from basedir " +:+ basedir]) as Hsrc.
  cbn zeta in Hsrc.
  destruct (foldl _ _ subs) as [m console]. cbn [fst] in Hsrc. destruct Hsrc as [Hnd Hget].
  eexists _, console, m. split; [done|]. cbn. done.
Qed.

(** X8.  When the directory can be read, [loadBasedir] returns a
    configuration whose vat sources have no repeated name and map NAME to
    the resolved path of [vat-NAME.js] exactly for the regular files of
    that name in the directory; the bootstrap index is the resolved
    [bootstrap.js] when that path exists. *)
Theorem loadBasedir_vat_sources (fs : filesystem) (basedir : string) (subs : list dirent) :
  readdirSync fs basedir = Some subs →
  ∃ cfg console m,
    loadBasedir (E:=E) resolve fs basedir = (Some cfg, console)
    ∧ vatSources cfg = Some m
    ∧ NoDup (Map_keys m)
    ∧ (∀ n p, Map_get n m = Some p
              ↔ p = resolve basedir ("vat-" +:+ n +:+ ".js")
                ∧ ∃ d, d ∈ subs ∧ isFile d = true ∧ name d = "vat-" +:+ n +:+ ".js")
    ∧ bootstrapIndexJS cfg
      = (if statSync fs (resolve basedir "bootstrap.js")
         then Some (resolve basedir "bootstrap.js") else None).
Proof. apply loadBasedir_sources. Qed.

(** X9.  [loadBasedir] writes the base directory to the console and then
    one line per entry it ignores, in order: the entries that are neither
    vat files nor backups (names ending in a tilde are passed over in
    silence). *)
Theorem loadBasedir_console (fs : filesystem) (basedir : string) (subs : list dirent) :
  readdirSync fs basedir = Some subs →
  (loadBasedir (E:=E) resolve fs basedir).2
  = ("= loading config from basedir " +:+ basedir)
    :: map (λ d, "ignoring  " +:+ name d)
         (filter (λ d, endsWith (name d) "~" = false
                       ∧ (startsWith (name d) "vat-" && isFile d
                          && endsWith (name d) ".js") = false) subs).
Proof.
  intros Hdir. unfold loadBasedir. rewrite Hdir.
  clear Hdir.
  assert (∀ console0, (foldl (loadEntry resolve basedir) ([], console0) subs).2
          = console0 ++ map (λ d, "ignoring  " +:+ name d)
              (filter (λ d, endsWith (name d) "~" = false
                            ∧ (startsWith (name d) "vat-" && isFile d
                               && endsWith (name d) ".js") = false) subs)) as Hfold.
  { intros console0. induction subs as [|d subs IH] using rev_ind.
    - cbn. by rewrite app_nil_r.
    - rewrite foldl_app, filter_app, map_app, app_assoc. cbn [foldl].
      destruct (foldl _ _ subs) as [m c]. cbn [snd] in IH. subst c.
      unfold loadEntry. cbn [filter list_filter].
      destruct (endsWith (name d) "~") eqn:Hb.
      { rewrite decide_False by (intros [? _]; done). cbn. by rewrite app_nil_r. }
      destruct (startsWith (name d) "vat-" && isFile d && endsWith (name d) ".js") eqn:Hv.
      { rewrite decide_False by (intros [_ ?]; done). cbn. by rewrite app_nil_r. }
      rewrite decide_True by done. reflexivity. }
  specialize (Hfold ["= loading config from basedir " +:+ basedir]).
  destruct (foldl _ _ subs) as [m c]. cbn [snd] in *. by subst c.
Qed.


End loadBasedir_facts.

Section buildVatController_facts.
Import Controller.
Context {E S A : Type} (isAbsolute : string → bool).
Context (loadSetup : bool → string → string + S).
Context (kernelThrows : list (@call E S A) → @call E S A → option string).

Abbreviation calls := (list (@call E S A)).
Abbreviation accepted := (Controller.accepted isAbsolute).
Abbreviation loads := (Controller.loads loadSetup).
Abbreviation registers := (@Controller.registers E S A).
Abbreviation kCall := (kernelCall kernelThrows).
Abbreviation addVat := (addGenesisVat isAbsolute loadSetup kernelThrows).
Abbreviation addDevice := (addGenesisDevice isAbsolute loadSetup kernelThrows).
Abbreviation add := (addOne isAbsolute loadSetup kernelThrows).
Abbreviation build := (buildVatController isAbsolute loadSetup kernelThrows).

(** *** Calls on the kernel *)

Lemma kernelCall_log (c : call) (log : calls) : (kCall c log).2 = log ++ [c].
Proof. unfold kernelCall. by destruct (kernelThrows log c). Qed.

Lemma kernelCall_outcome (c : call) (log : calls) :
  (kCall c log).1 = Done ∨ ∃ reason, (kCall c log).1 = Threw (KernelFailed reason).
Proof. unfold kernelCall. destruct (kernelThrows log c) as [reason|]; [right; by eexists|by left]. Qed.

Lemma kernelCall_quiet (c : call) (log : calls) :
  (∀ log c, kernelThrows log c = None) → (kCall c log).1 = Done.
Proof. intros Hquiet. unfold kernelCall. by rewrite Hquiet. Qed.

(** *** Sequences and loops *)

Lemma andThen_outcome (f g : calls → outcome * calls) (log : calls) :
  ((f log).1 = Done ∧ andThen f g log = g (f log).2)
  ∨ (∃ e, (f log).1 = Threw e ∧ andThen f g log = f log).
Proof.
  unfold andThen. destruct (f log) as [[|e] log1]; [by left|right; by exists e].
Qed.

Lemma forEach_app {X} (body : X → calls → outcome * calls) (xs ys : list X) (log : calls) :
  forEach body (xs ++ ys) log = andThen (forEach body xs) (forEach body ys) log.
Proof.
  revert log. induction xs as [|x xs IH]; intros log; [done|].
  cbn [forEach app]. unfold andThen in *. cbn [forEach].
  destruct (body x log) as [[|e] log1]; [apply IH|done].
Qed.

Lemma forEach_map {X Y} (f : X → Y) (body : Y → calls → outcome * calls)
    (xs : list X) (log : calls) :
  forEach body (map f xs) log = forEach (λ x, body (f x)) xs log.
Proof.
  revert log. induction xs as [|x xs IH]; intros log; [done|].
  cbn [forEach map]. destruct (body (f x) log) as [[|e] log1]; [apply IH|done].
Qed.

Lemma forEach_outcome {X} (body : X → calls → outcome * calls) (xs : list X) (log : calls) :
  ((forEach body xs log).1 = Done ∧ ∀ x, x ∈ xs → ∃ log', (body x log').1 = Done)
  ∨ (∃ e x log', (forEach body xs log).1 = Threw e ∧ x ∈ xs ∧ (body x log').1 = Threw e).
Proof.
  revert log. induction xs as [|x xs IH]; intros log.
  - left. split; [done|]. intros x Hin. by apply elem_of_nil in Hin.
  - cbn [forEach]. destruct (body x log) as [[|e] log1] eqn:Hbody.
    + destruct (IH log1) as [[Hdone Hall]|(e & y & log' & Hthrew & Hin & Hy)].
      * left. split; [done|]. intros y Hin. apply elem_of_cons in Hin as [->|Hin].
        -- exists log. by rewrite Hbody.
        -- by apply Hall.
      * right. exists e, y, log'. split; [done|]. split; [by apply list_elem_of_further|done].
    + right. exists e, x, log. split; [done|]. split; [apply list_elem_of_here|by rewrite Hbody].
Qed.

Lemma forEach_quiet {X} (body : X → calls → outcome * calls) (okb : X → bool)
    (xs : list X) (log : calls) :
  (∀ x, x ∈ xs → ∀ log, (body x log).1 = if okb x then Done else Threw BareSourceIndex) →
  (forEach body xs log).1 = if forallb okb xs then Done else Threw BareSourceIndex.
Proof.
  revert log. induction xs as [|x xs IH]; intros log Hbody; [done|].
  cbn. pose proof (Hbody x (list_elem_of_here _ _) log) as Hx.
  destruct (body x log) as [[|e] log1]; cbn in Hx.
  - destruct (okb x); [|done]. apply IH. intros y Hin. by apply Hbody, list_elem_of_further.
  - by destruct (okb x).
Qed.

Lemma forEach_trace {X} (body : X → calls → outcome * calls) (evs : X → calls)
    (xs : list X) (log : calls) :
  (∀ x log, (body x log).1 = Done → (body x log).2 = log ++ evs x) →
  (forEach body xs log).1 = Done →
  (forEach body xs log).2 = log ++ flat_map evs xs.
Proof.
  intros Hbody. revert log. induction xs as [|x xs IH]; intros log; cbn.
  - by rewrite app_nil_r.
  - specialize (Hbody x log). destruct (body x log) as [[|msg] log1]; cbn in *; [|done].
    intros Hdone. rewrite (IH _ Hdone), Hbody by done. by rewrite app_assoc.
Qed.

Lemma skip_registers : registers (λ log : calls, (Done, log)).
Proof.
  intros log. exists []. rewrite app_nil_r. split; [done|].
  intros v a Hin. by apply elem_of_nil in Hin.
Qed.

Lemma andThen_registers (f g : calls → outcome * calls) :
  registers f → registers g → registers (andThen f g).
Proof.
  intros Hf Hg log. unfold andThen.
  destruct (Hf log) as (evs & Hlog & Hno).
  destruct (f log) as [[|e] log1]; cbn in *; subst log1.
  - destruct (Hg (log ++ evs)) as (evs' & Hlog' & Hno').
    exists (evs ++ evs'). rewrite app_assoc. split; [done|].
    intros v a Hin. apply elem_of_app in Hin as [Hin|Hin]; [by apply Hno in Hin|by apply Hno' in Hin].
  - by exists evs.
Qed.

Lemma forEach_registers {X} (body : X → calls → outcome * calls) (xs : list X) :
  (∀ x, registers (body x)) → registers (forEach body xs).
Proof.
  intros Hbody. induction xs as [|x xs IH]; [apply skip_registers|].
  intros log. specialize (andThen_registers _ _ (Hbody x) IH log).
  unfold andThen. cbn [forEach]. by destruct (body x log) as [[|e] log1].
Qed.

(** *** One addition *)

(** What a successful addition leaves in the record. *)
Lemma addGenesisVat_trace withSES vatID sourceIndex (log : calls) :
  (addVat withSES vatID sourceIndex log).1 = Done →
  (addVat withSES vatID sourceIndex log).2
  = log ++ ConsoleLog ("= adding vat '" +:+ vatID +:+ "' from " +:+ sourceIndex)
           :: match loadSetup withSES sourceIndex with
              | inr setup => [KernelAddGenesisVat vatID setup]
              | inl _ => []
              end.
Proof.
  unfold addGenesisVat. destruct (negb _); [done|].
  destruct (loadSetup withSES sourceIndex) as [reason|setup]; [done|].
  intros _. rewrite kernelCall_log. by rewrite <- app_assoc.
Qed.

Lemma addGenesisDevice_trace withSES (device : string * string * E) (log : calls) :
  (addDevice withSES device log).1 = Done →
  (addDevice withSES device log).2
  = log ++ match loadSetup withSES device.1.2 with
           | inr setup => [KernelAddGenesisDevice device.1.1 setup device.2]
           | inl _ => []
           end.
Proof.
  destruct device as [[deviceName sourceIndex] endowments].
  unfold addGenesisDevice. destruct (negb _); [done|]. cbn [fst snd].
  destruct (loadSetup withSES sourceIndex) as [reason|setup]; [done|].
  intros _. by rewrite kernelCall_log.
Qed.

Lemma addOne_registers withSES item : registers (add withSES item).
Proof.
  intros log. destruct item as [[[deviceName sourceIndex] endowments]|[vatID sourceIndex]];
    cbn [addOne]; unfold addGenesisDevice, addGenesisVat;
    (destruct (negb _); [|destruct (loadSetup withSES sourceIndex) as [reason|setup]]);
    rewrite ?kernelCall_log; cbn [snd].
  - exists []. rewrite app_nil_r. split; [done|]. intros v a Hin. by apply elem_of_nil in Hin.
  - exists []. rewrite app_nil_r. split; [done|]. intros v a Hin. by apply elem_of_nil in Hin.
  - eexists [_]. split; [done|]. intros v a Hin. by apply list_elem_of_singleton in Hin.
  - eexists [_]. split; [done|]. intros v a Hin. by apply list_elem_of_singleton in Hin.
  - eexists [_]. split; [done|]. intros v a Hin. by apply list_elem_of_singleton in Hin.
  - eexists [_; _]. rewrite <- app_assoc. split; [done|].
    intros v a Hin. rewrite !elem_of_cons, elem_of_nil in Hin. by destruct Hin as [?|[?|?]].
Qed.

Lemma addOne_done withSES item (log : calls) :
  (add withSES item log).1 = Done →
  accepted (sourceIndexOf item) = true ∧ loads withSES (sourceIndexOf item) = true.
Proof.
  destruct item as [[[deviceName sourceIndex] endowments]|[vatID sourceIndex]];
    cbn [addOne sourceIndexOf fst snd]; unfold addGenesisDevice, addGenesisVat, accepted, loads;
    (destruct (_ || _); [|done]);
    by destruct (loadSetup withSES sourceIndex).
Qed.

Lemma addOne_bare withSES item (log : calls) :
  (add withSES item log).1 = Threw BareSourceIndex →
  accepted (sourceIndexOf item) = false.
Proof.
  destruct item as [[[deviceName sourceIndex] endowments]|[vatID sourceIndex]];
    cbn [addOne sourceIndexOf fst snd]; unfold addGenesisDevice, addGenesisVat, accepted;
    (destruct (_ || _); [|done]); cbn [negb];
    (destruct (loadSetup withSES sourceIndex) as [reason|setup]; [done|]);
    intros Hthrew;
    match type of Hthrew with
    | (kernelCall _ ?c ?l).1 = _ => by destruct (kernelCall_outcome c l) as [Hk|[r Hk]]; rewrite Hk in Hthrew
    end.
Qed.

Lemma addOne_quiet withSES item (log : calls) :
  (∀ log c, kernelThrows log c = None) →
  loads withSES (sourceIndexOf item) = true →
  (add withSES item log).1
  = if accepted (sourceIndexOf item) then Done else Threw BareSourceIndex.
Proof.
  intros Hquiet.
  destruct item as [[[deviceName sourceIndex] endowments]|[vatID sourceIndex]];
    cbn [addOne sourceIndexOf fst snd]; unfold addGenesisDevice, addGenesisVat, accepted, loads;
    (destruct (_ || _); [|done]); cbn [negb];
    (destruct (loadSetup withSES sourceIndex) as [reason|setup]; [done|]);
    intros _; by apply kernelCall_quiet.
Qed.

(** *** The whole of [buildVatController] *)

(** The additions are one loop. *)
Lemma buildVatController_additions (cfg : config E) (withSES : bool) (argv : A) :
  build cfg withSES argv
  = andThen (kCall (BuildKernel withSES
                      (match initialState cfg with
                       | Some s => if String.eqb s "" then "{}" else s
                       | None => "{}"
                       end)))
      (andThen (forEach (add withSES) (additions cfg))
         (kCall (KernelStart "_bootstrap" argv)))
      [].
Proof.
  unfold buildVatController, additions, andThen.
  destruct (kCall _ []) as [[|e] log0]; [|done].
  rewrite forEach_app. unfold andThen. rewrite forEach_map.
  change (λ x : string * string * E, add withSES (inl x)) with (addDevice withSES).
  destruct (forEach (addDevice withSES) _ log0) as [[|e] log1]; [|done].
  rewrite forEach_app. unfold andThen. rewrite forEach_map.
  change (λ x : string, add withSES
            (inr (x, default "" (Map_get x (default [] (vatSources cfg))))))
    with (λ (vatID : string) (log : calls),
            addVat withSES vatID
              (default "" (Map_get vatID (default [] (vatSources cfg)))) log).
  destruct (forEach _ (Map_keys _) log1) as [[|e] log2]; [|done].
  destruct (bootstrapIndexJS cfg) as [index|]; [|done].
  destruct (String.eqb index ""); [done|]. cbn [forEach addOne].
  by destruct (addVat withSES "_bootstrap" index log2) as [[|e] log3].
Qed.

Lemma forallb_of_map {X Y} (f : X → Y) (p : Y → bool) (xs : list X) :
  forallb p (map f xs) = forallb (λ x, p (f x)) xs.
Proof. induction xs as [|x xs IH]; [done|]. cbn. by rewrite IH. Qed.

Lemma sourceIndexes_additions (cfg : config E) :
  sourceIndexes cfg = map sourceIndexOf (additions cfg).
Proof.
  unfold sourceIndexes, additions. rewrite !map_app, !map_map. cbn [sourceIndexOf].
  do 2 f_equal. destruct (bootstrapIndexJS cfg) as [index|]; [|done].
  by destruct (String.eqb index "").
Qed.

(** When [buildVatController] returns, every source index was accepted
    and loaded. *)
Lemma buildVatController_done (cfg : config E) (withSES : bool) (argv : A) :
  (build cfg withSES argv).1 = Done →
  ∀ sourceIndex, sourceIndex ∈ sourceIndexes cfg →
    accepted sourceIndex = true ∧ loads withSES sourceIndex = true.
Proof.
  rewrite buildVatController_additions, sourceIndexes_additions.
  intros Hdone sourceIndex Hin. apply list_elem_of_fmap in Hin as (item & -> & Hin).
  destruct (andThen_outcome (kCall (BuildKernel withSES
              (match initialState cfg with
               | Some s => if String.eqb s "" then "{}" else s
               | None => "{}"
               end)))
              (andThen (forEach (add withSES) (additions cfg))
                 (kCall (KernelStart "_bootstrap" argv))) [])
    as [[_ Heq]|(e & He & Heq)]; rewrite Heq in Hdone; [|by rewrite He in Hdone].
  match type of Hdone with
  | (andThen ?f ?g ?l).1 = _ =>
      destruct (andThen_outcome f g l) as [[Hf _]|(e & He & Heq')];
        [|by rewrite Heq', He in Hdone]
  end.
  match type of Hf with
  | (forEach ?b ?xs ?l).1 = _ =>
      destruct (forEach_outcome b xs l) as [[_ Hall]|(e & x & log' & He & _)];
        [|by rewrite He in Hf]
  end.
  destruct (Hall item Hin) as [log' Hitem]. by apply addOne_done in Hitem.
Qed.

(** When it throws the error of its own check, a source index was not
    accepted. *)
Lemma buildVatController_bare (cfg : config E) (withSES : bool) (argv : A) :
  (build cfg withSES argv).1 = Threw BareSourceIndex →
  ∃ sourceIndex, sourceIndex ∈ sourceIndexes cfg ∧ accepted sourceIndex = false.
Proof.
  rewrite buildVatController_additions, sourceIndexes_additions.
  intros Hthrew.
  match type of Hthrew with
  | (andThen (kernelCall _ ?c) ?g ?l).1 = _ =>
      destruct (andThen_outcome (kCall c) g l) as [[_ Heq]|(e & He & Heq)];
        rewrite Heq in Hthrew;
        [|by destruct (kernelCall_outcome c l) as [Hk|[r Hk]]; rewrite Hk in Hthrew]
  end.
  match type of Hthrew with
  | (andThen ?f (kernelCall _ ?c) ?l).1 = _ =>
      destruct (andThen_outcome f (kCall c) l) as [[_ Heq']|(e & He & Heq')];
        rewrite Heq' in Hthrew;
        [by destruct (kernelCall_outcome c (f l).2) as [Hk|[r Hk]]; rewrite Hk in Hthrew|]
  end.
  match type of Hthrew with
  | (forEach ?b ?xs ?l).1 = _ =>
      destruct (forEach_outcome b xs l) as [[Hdone _]|(e' & x & log' & He' & Hin & Hx)];
        [by rewrite Hdone in Hthrew|]
  end.
  rewrite Hthrew in He'. injection He' as <-.
  exists (sourceIndexOf x). split; [by apply list_elem_of_fmap_2|].
  by apply addOne_bare in Hx.
Qed.

(** When no load and no call on the kernel throws, the check of the
    source indexes decides. *)
Lemma buildVatController_quiet (cfg : config E) (withSES : bool) (argv : A) :
  (∀ log c, kernelThrows log c = None) →
  (∀ sourceIndex, sourceIndex ∈ sourceIndexes cfg → loads withSES sourceIndex = true) →
  (build cfg withSES argv).1
  = if forallb accepted (sourceIndexes cfg) then Done else Threw BareSourceIndex.
Proof.
  intros Hquiet Hloads.
  rewrite buildVatController_additions. unfold andThen.
  match goal with
  | |- context [kernelCall _ ?c ?l] =>
      pose proof (kernelCall_quiet c l Hquiet) as Hk;
        destruct (kCall c l) as [[|e] log0]; [clear Hk|done]
  end.
  pose proof (forEach_quiet (add withSES) (λ item, accepted (sourceIndexOf item))
                (additions cfg) log0) as Hloop.
  rewrite sourceIndexes_additions, forallb_of_map.
  destruct (forEach (add withSES) (additions cfg) log0) as [[|e] log1]; cbn [fst] in Hloop.
  - rewrite <- Hloop; [by apply kernelCall_quiet|].
    intros item Hin log. apply addOne_quiet; [done|].
    apply Hloads. rewrite sourceIndexes_additions. by apply list_elem_of_fmap_2.
  - cbn [fst]. apply Hloop.
    intros item Hin log. apply addOne_quiet; [done|].
    apply Hloads. rewrite sourceIndexes_additions. by apply list_elem_of_fmap_2.
Qed.

(** X10.  [buildVatController] builds the kernel first.  Either it gets
    to start the kernel with [_bootstrap], which is then its last call
    and the only start, and it returns unless the kernel rejects the
    start; or it throws before, and then the kernel was never started. *)
Theorem kernel_started_last (cfg : config E) (withSES : bool) (argv : A) :
  ∃ initial evs,
    (build cfg withSES argv).2 = BuildKernel withSES initial :: evs
    ∧ ((∃ pre, evs = pre ++ [KernelStart "_bootstrap" argv]
               ∧ (∀ v a, KernelStart v a ∉ pre)
               ∧ ((build cfg withSES argv).1 = Done
                  ∨ ∃ reason, (build cfg withSES argv).1 = Threw (KernelFailed reason)))
       ∨ ((∀ v a, KernelStart v a ∉ evs)
          ∧ ∃ e, (build cfg withSES argv).1 = Threw e)).
Proof.
  rewrite buildVatController_additions. unfold andThen.
  eexists.
  match goal with
  | |- context [kernelCall _ ?c ?l] =>
      pose proof (kernelCall_log c l) as Hlog0;
        destruct (kCall c l) as [[|e] log0]; cbn [fst snd app] in Hlog0; subst log0
  end.
  2:{ exists []. split; [done|]. right. split; [|by exists e].
      intros v a Hin. by apply elem_of_nil in Hin. }
  match goal with
  | |- context [forEach ?b ?xs ?l] =>
      destruct (forEach_registers b xs (addOne_registers withSES) l) as (evs & Hlog & Hno);
        destruct (forEach b xs l) as [[|e] log1]; cbn [fst snd app] in Hlog; subst log1
  end.
  2:{ exists evs. split; [done|]. right. split; [done|by exists e]. }
  exists (evs ++ [KernelStart "_bootstrap" argv]).
  rewrite kernelCall_log. split; [done|]. left. exists evs. split; [done|]. split; [done|].
  apply kernelCall_outcome.
Qed.

(** X11.  When [buildVatController] returns, the source index of every
    device, of every vat and of the bootstrap (if there is a non-empty
    one) starts with a dot or is absolute, and its [setup] function was
    loaded.  When it throws the bare-source-index error, one of these
    source indexes neither starts with a dot nor is absolute.  When no
    load and no call on the kernel throws, it returns if every source
    index starts with a dot or is absolute and throws the
    bare-source-index error otherwise. *)
Theorem buildVatController_accepts_iff (cfg : config E) (withSES : bool) (argv : A) :
  ((build cfg withSES argv).1 = Done →
   ∀ sourceIndex, sourceIndex ∈ sourceIndexes cfg →
     accepted sourceIndex = true ∧ loads withSES sourceIndex = true)
  ∧ ((build cfg withSES argv).1 = Threw BareSourceIndex →
     ∃ sourceIndex, sourceIndex ∈ sourceIndexes cfg ∧ accepted sourceIndex = false)
  ∧ ((∀ log c, kernelThrows log c = None) →
     (∀ sourceIndex, sourceIndex ∈ sourceIndexes cfg → loads withSES sourceIndex = true) →
     (build cfg withSES argv).1
     = if forallb accepted (sourceIndexes cfg) then Done else Threw BareSourceIndex).
Proof.
  split; [apply buildVatController_done|].
  split; [apply buildVatController_bare|apply buildVatController_quiet].
Qed.

(** X12.  When [buildVatController] returns, every [setup] function was
    loaded and what it did is: build the kernel on the initial state (or
    on [{}]), add the devices in order, add the vats in the order of the
    map, each announced on the console, add the bootstrap vat if there
    is one, start the kernel with [_bootstrap] (also when no bootstrap
    vat was added). *)
Theorem buildVatController_order (cfg : config E) (withSES : bool) (argv : A) :
  (build cfg withSES argv).1 = Done →
  (∀ sourceIndex, sourceIndex ∈ sourceIndexes cfg → loads withSES sourceIndex = true)
  ∧ (build cfg withSES argv).2
    = BuildKernel withSES
        (match initialState cfg with
         | Some s => if String.eqb s "" then "{}" else s
         | None => "{}"
         end)
      :: flat_map (λ device : string * string * E,
                     match loadSetup withSES device.1.2 with
                     | inr setup => [KernelAddGenesisDevice device.1.1 setup device.2]
                     | inl _ => []
                     end)
           (default [] (devices cfg))
      ++ flat_map (λ vatID,
                     let sourceIndex :=
                       default "" (Map_get vatID (default [] (vatSources cfg))) in
                     ConsoleLog ("= adding vat '" +:+ vatID +:+ "' from " +:+ sourceIndex)
                     :: match loadSetup withSES sourceIndex with
                        | inr setup => [KernelAddGenesisVat vatID setup]
                        | inl _ => []
                        end)
           (Map_keys (default [] (vatSources cfg)))
      ++ match bootstrapIndexJS cfg with
         | Some index =>
             if String.eqb index "" then []
             else ConsoleLog ("= adding vat '" +:+ "_bootstrap" +:+ "' from " +:+ index)
                  :: match loadSetup withSES index with
                     | inr setup => [KernelAddGenesisVat "_bootstrap" setup]
                     | inl _ => []
                     end
         | None => []
         end
      ++ [KernelStart "_bootstrap" argv].
Proof.
  intros Hdone. split.
  { intros sourceIndex Hin. by apply (buildVatController_done cfg withSES argv Hdone). }
  revert Hdone. unfold buildVatController, andThen.
  match goal with
  | |- context [kernelCall _ ?c ?l] =>
      pose proof (kernelCall_log c l) as Hlog0;
        destruct (kCall c l) as [[|e] log0]; [|done]; cbn [fst snd app] in Hlog0; subst log0
  end.
  match goal with
  | |- context [forEach ?b ?xs ?l] =>
      pose proof (forEach_trace b _ xs l (addGenesisDevice_trace withSES)) as Hdev;
        destruct (forEach b xs l) as [[|e] log1]; [|done];
        cbn [fst snd] in Hdev; specialize (Hdev eq_refl); subst log1
  end.
  match goal with
  | |- context [forEach ?b ?xs ?l] =>
      pose proof (forEach_trace b _ xs l
                    (λ vatID log, addGenesisVat_trace withSES vatID _ log)) as Hvats;
        destruct (forEach b xs l) as [[|e] log2]; [|done];
        cbn [fst snd] in Hvats; specialize (Hvats eq_refl); subst log2
  end.
  destruct (bootstrapIndexJS cfg) as [index|].
  - destruct (String.eqb index "").
    + intros _. rewrite kernelCall_log. cbn. by rewrite <- ?app_assoc.
    + match goal with
      | |- context [addGenesisVat _ _ _ _ _ _ ?l] =>
          pose proof (addGenesisVat_trace withSES "_bootstrap" index l) as Hboot;
            destruct (addVat withSES "_bootstrap" index l) as [[|e] log3]; [|done];
            cbn [fst snd] in Hboot; specialize (Hboot eq_refl); subst log3
      end.
      intros _. rewrite kernelCall_log. cbn. by rewrite <- ?app_assoc.
  - intros _. rewrite kernelCall_log. cbn. by rewrite <- ?app_assoc.
Qed.

End buildVatController_facts.

Section controller_composition.
Import Controller.
Context {E S A J : Type}.
Context (resolve : string → string → string) (isAbsolute : string → bool).
Context (loadSetup : bool → string → string + S).
Context (kernelThrows : list (@call E S A) → @call E S A → option string).

(** With a [path.resolve] that returns absolute paths, every source index
    of a configuration made by [loadBasedir] is accepted. *)
Lemma loadBasedir_sourceIndexes (fs : filesystem) (basedir : string)
    (cfg : config E) (console : list string) :
  (∀ dir file, isAbsolute (resolve dir file) = true) →
  loadBasedir resolve fs basedir = (Some cfg, console) →
  ∀ sourceIndex, sourceIndex ∈ sourceIndexes cfg →
    Controller.accepted isAbsolute sourceIndex = true.
Proof.
  intros Habs Hload sourceIndex.
  destruct (readdirSync fs basedir) as [subs|] eqn:Hdir.
  2:{ unfold loadBasedir in Hload. by rewrite Hdir in Hload. }
  destruct (loadBasedir_sources (E:=E) resolve fs basedir subs Hdir)
    as (cfg' & console' & m & Hload' & Hm & Hnd & Hget & Hboot).
  rewrite Hload in Hload'. injection Hload' as <- <-.
  assert (devices cfg = None) as Hdev.
  { unfold loadBasedir in Hload. rewrite Hdir in Hload.
    destruct (foldl _ _ subs). by injection Hload as <- _. }
  unfold sourceIndexes. rewrite Hdev, Hm, Hboot. cbn [default map app].
  intros Hin. apply elem_of_app in Hin as [Hin|Hin].
  - apply list_elem_of_fmap in Hin as (vatID & -> & Hin).
    apply (proj2 (Map_get_keys _ _)) in Hin as [p Hp]. rewrite Hp. cbn.
    apply Hget in Hp as [-> _]. unfold Controller.accepted. by rewrite Habs, orb_true_r.
  - destruct (statSync fs _); [|by apply elem_of_nil in Hin].
    destruct (String.eqb _ ""); [by apply elem_of_nil in Hin|].
    apply list_elem_of_singleton in Hin as ->.
    unfold Controller.accepted. by rewrite Habs, orb_true_r.
Qed.

(** X13.  With a [path.resolve] that returns absolute paths,
    [buildVatController] never throws the bare-source-index error on the
    configuration [loadBasedir] returns; and it returns when, besides,
    every [setup] function loads and no call on the kernel throws. *)
Theorem loadBasedir_config_accepted (fs : filesystem) (basedir : string)
    (cfg : config E) (console : list string) (withSES : bool) (argv : A) :
  (∀ dir file, isAbsolute (resolve dir file) = true) →
  loadBasedir resolve fs basedir = (Some cfg, console) →
  (buildVatController isAbsolute loadSetup kernelThrows cfg withSES argv).1
  ≠ Threw BareSourceIndex
  ∧ ((∀ log c, kernelThrows log c = None) →
     (∀ sourceIndex, sourceIndex ∈ sourceIndexes cfg →
        Controller.loads loadSetup withSES sourceIndex = true) →
     (buildVatController isAbsolute loadSetup kernelThrows cfg withSES argv).1 = Done).
Proof.
  intros Habs Hload.
  pose proof (loadBasedir_sourceIndexes fs basedir cfg console Habs Hload) as Hacc.
  split.
  - intros Hthrew. apply buildVatController_bare in Hthrew as (sourceIndex & Hin & Hno).
    apply Hacc in Hin. congruence.
  - intros Hquiet Hloads.
    rewrite (buildVatController_quiet isAbsolute loadSetup kernelThrows cfg withSES argv
               Hquiet Hloads).
    assert (forallb (Controller.accepted isAbsolute) (sourceIndexes cfg) = true) as ->; [|done].
    apply forallb_forall. intros sourceIndex Hin. by apply Hacc, list_elem_of_In.
Qed.

(** X14.  After [save(state)], [manageStateInBasedir] on the same
    directory gives the parsed [state], or the empty object when [state]
    does not parse; directories whose state file is another file are
    not affected. *)
Theorem save_then_manage (JSON_parse : string → option J) (emptyObject : J)
    (files : gmap string string) (basedir basedir' state : string) :
  manageStateInBasedir resolve JSON_parse emptyObject (save resolve basedir state files) basedir
  = default emptyObject (JSON_parse state)
  ∧ (resolve basedir' "state.json" ≠ resolve basedir "state.json" →
     manageStateInBasedir resolve JSON_parse emptyObject
       (save resolve basedir state files) basedir'
     = manageStateInBasedir resolve JSON_parse emptyObject files basedir').
Proof.
  unfold manageStateInBasedir, save. split.
  - by rewrite lookup_insert_eq.
  - intros Hne. by rewrite lookup_insert_ne.
Qed.

End controller_composition.

(** * Properties of the gallery canvas *)

Section gallery_facts.
Import Gallery.

Lemma Nat_of_nat (n : nat) : (Z.of_nat n ≤ 2 ^ 53 - 1)%Z → Gallery.Nat (Z.of_nat n) = inr n.
Proof.
  intros Hn. unfold Gallery.Nat. rewrite bool_decide_eq_true_2 by lia.
  by rewrite Nat2Z.id.
Qed.

Lemma Nat_inr (x : Z) (n : nat) : Gallery.Nat x = inr n → x = Z.of_nat n.
Proof.
  unfold Gallery.Nat. case_bool_decide; [|done]. intros [= <-]. lia.
Qed.

Lemma array_get_set (row : list (option string)) (y : nat) (v : string) :
  array_get (array_set row y v) y = Some v.
Proof.
  unfold array_get, array_set. case_bool_decide as Hy.
  - by rewrite list_lookup_insert_eq.
  - rewrite app_assoc, lookup_app_r; rewrite length_app, length_replicate; [|lia].
    replace (y - (length row + (y - length row))) with 0 by lia. done.
Qed.

Lemma array_get_set_ne (row : list (option string)) (y y' : nat) (v : string) :
  y' ≠ y → array_get (array_set row y v) y' = array_get row y'.
Proof.
  intros Hne. unfold array_get, array_set. case_bool_decide as Hy.
  - by rewrite list_lookup_insert_ne.
  - destruct (decide (y' < length row)) as [Hlt|Hge].
    + by rewrite lookup_app_l.
    + rewrite (lookup_ge_None_2 row y') by lia.
      rewrite lookup_app_r by lia.
      destruct (decide (y' < y)) as [Hlt|Hgt].
      * rewrite lookup_app_l by (rewrite length_replicate; lia).
        rewrite lookup_replicate_2 by lia. done.
      * rewrite lookup_app_r by (rewrite length_replicate; lia).
        rewrite length_replicate.
        rewrite lookup_ge_None_2; [done|]. cbn. lia.
Qed.

(** X15.  On a fresh canvas [getColor], given natural numbers, answers
    the initial colour inside the canvas, [undefined] for a [y] beyond
    it, and throws a TypeError for an [x] beyond it. *)
Theorem fresh_canvas_color (canvasSize : nat) (x y : Z) :
  (0 ≤ x ≤ 2 ^ 53 - 1)%Z → (0 ≤ y ≤ 2 ^ 53 - 1)%Z →
  getColor (makeRandomData canvasSize) x y
  = if bool_decide (x < Z.of_nat canvasSize)%Z then
      if bool_decide (y < Z.of_nat canvasSize)%Z then inr (Some "#D3D3D3") else inr None
    else inl TypeError.
Proof.
  intros Hx Hy. unfold getColor, Gallery.Nat.
  rewrite !bool_decide_eq_true_2 by done.
  unfold makeRandomData, array_get.
  case_bool_decide as Hxs.
  - rewrite lookup_replicate_2 by lia.
    case_bool_decide as Hys.
    + by rewrite lookup_replicate_2 by lia.
    + rewrite lookup_ge_None_2; [done|]. rewrite length_replicate. lia.
  - rewrite lookup_ge_None_2; [done|]. rewrite length_replicate. lia.
Qed.

(** X16.  After [setPixelState] on a row of the canvas, the handler was
    given the new state once, [getColor] at that pixel answers the new
    colour, and at every other pair of coordinates what it answered
    before. *)
Theorem setPixelState_getColor (state : list (list (option string))) (x y : nat)
    (newColor : string) (handled : list (list (list (option string)))) :
  x < length state → (Z.of_nat x ≤ 2 ^ 53 - 1)%Z → (Z.of_nat y ≤ 2 ^ 53 - 1)%Z →
  ∃ state', setPixelState state x y newColor handled = inr (state', handled ++ [state'])
    ∧ length state' = length state
    ∧ getColor state' (Z.of_nat x) (Z.of_nat y) = inr (Some newColor)
    ∧ ∀ x' y', (x', y') ≠ (Z.of_nat x, Z.of_nat y) →
               getColor state' x' y' = getColor state x' y'.
Proof.
  intros Hx Hxs Hys. unfold setPixelState.
  destruct (state !! x) as [row|] eqn:Hrow; [|by apply lookup_ge_None_1 in Hrow; lia].
  eexists. split; [done|]. split; [by rewrite length_insert|]. split.
  - unfold getColor. rewrite !Nat_of_nat by done.
    rewrite list_lookup_insert_eq by done. by rewrite array_get_set.
  - intros x' y' Hne. unfold getColor.
    destruct (Gallery.Nat x') as [e|n] eqn:Hn; [done|].
    destruct (Gallery.Nat y') as [e|m] eqn:Hm; [done|].
    apply Nat_inr in Hn, Hm. subst x' y'.
    destruct (decide (n = x)) as [->|Hnx].
    + rewrite list_lookup_insert_eq by done. rewrite Hrow.
      rewrite array_get_set_ne; [done|]. intros ->. done.
    + by rewrite list_lookup_insert_ne.
Qed.

(** X17.  The fresh canvas is a full square of [canvasSize] rows of
    [canvasSize] colours, and stays one under [setPixelState] at
    coordinates below [canvasSize]; an [x] beyond the rows throws a
    TypeError. *)
Theorem setPixelState_keeps_square (canvasSize : nat)
    (state : list (list (option string))) (x y : nat) (newColor : string)
    (handled : list (list (list (option string)))) :
  full_square canvasSize (makeRandomData canvasSize)
  ∧ (full_square canvasSize state → x < canvasSize → y < canvasSize →
     ∃ state', setPixelState state x y newColor handled = inr (state', handled ++ [state'])
               ∧ full_square canvasSize state')
  ∧ ((length state ≤ x)%nat → setPixelState state x y newColor handled = inl TypeError).
Proof.
  split; [|split].
  - unfold full_square, makeRandomData. rewrite length_replicate. split; [done|].
    apply Forall_replicate. rewrite length_replicate. split; [done|].
    apply Forall_replicate. by eexists.
  - intros [Hlen Hrows] Hx Hy. unfold setPixelState.
    destruct (state !! x) as [row|] eqn:Hrow; [|by apply lookup_ge_None_1 in Hrow; lia].
    eexists. split; [done|]. split; [by rewrite length_insert|].
    apply Forall_insert; [done|].
    rewrite Forall_lookup in Hrows. destruct (Hrows x row Hrow) as [Hrl Hfull].
    unfold array_set. rewrite bool_decide_eq_true_2 by lia.
    rewrite length_insert. split; [done|]. apply Forall_insert; [done|]. by eexists.
  - intros Hx. unfold setPixelState. by rewrite lookup_ge_None_2.
Qed.

End gallery_facts.

(** * The further properties on concrete inputs *)

Lemma create_succeeds_iff_witness :
  ∃ bundle desc log1,
    resolveSource demoStuff inlineSource [] = (inr (bundle, desc), log1)
    ∧ (∀ key, is_Some ((∅ : obj) !! key) → key ∈ allowedOptions true)
    ∧ vatManagerFactory demoStuff "v1"
        (composeManagerOptions demoStuff bundle ∅ (makeSourcedConsole demoStuff "v1"))
        (buildVatSyscallHandler demoStuff "v1" (JObject 4))
      = Fulfilled (JObject 9).
Proof.
  apply (proj1 (create_succeeds_iff demoStuff "v1" inlineSource (JObject 4) ∅ true []
                  (JObject 9))).
  vm_compute. reflexivity.
Defined.

Lemma static_vats_never_metered_witness :
  ∃ evs, (recreateStaticVat demoStuff "v1" inlineSource (JObject 4) ∅ []).2 = [] ++ evs
    ∧ ∀ v mo h, VatManagerFactory v mo h ∈ evs →
        mo !! "metered" = Some (default (JBool false) (overrides demoStuff !! "metered")).
Proof. exact (static_vats_never_metered demoStuff "v1" inlineSource (JObject 4) ∅ []). Defined.

Lemma create_factory_call_guarded_witness :
  ∃ mo h bundle,
    VatManagerFactory "v1" mo h
    ∈ (create demoStuff "v1" namedSource (JObject 4) ∅ true []).2
    ∧ (∀ key, is_Some ((∅ : obj) !! key) → key ∈ allowedOptions true)
    ∧ mo !! "bundle" = Some bundle
    ∧ typeof bundle = "object"
    ∧ truthy bundle = true.
Proof.
  destruct (create_factory_call_guarded demoStuff "v1" namedSource (JObject 4) ∅ true [])
    as (evs & Hlog & Hguard).
  cbn [app] in Hlog.
  assert (∃ mo h, VatManagerFactory "v1" mo h ∈ evs) as (mo & h & Hin).
  { rewrite <- Hlog. vm_compute. do 2 eexists.
    repeat first [apply list_elem_of_here | apply list_elem_of_further]. }
  destruct (Hguard "v1" mo h Hin) as (_ & Hall & Hbundle).
  destruct Hbundle as (bundle & Hmo & Htype & Htruthy); [reflexivity|].
  exists mo, h, bundle. rewrite Hlog.
  split; [done|]. split; [done|]. split; [done|]. split; [done|].
  apply Htruthy. reflexivity.
Defined.

Lemma panic_only_on_failed_recreation_witness :
  ∃ err, (recreateStaticVat demoStuff "v1" inlineSource (JObject 4) meteredOptions []).1
         = inl err.
Proof.
  destruct (panic_only_on_failed_recreation demoStuff "v1" inlineSource (JObject 4)
              meteredOptions false []) as (_ & _ & evs & Hlog & Hpanic).
  apply Hpanic. exists "unable to re-create vat v1", UnknownOption.
  vm_compute in Hlog. subst evs. apply list_elem_of_here.
Defined.

Lemma create_startup_bracket_witness :
  ∃ evs, (create demoStuff "v1" inlineSource (JObject 4) ∅ true []).2 = [] ++ evs
    ∧ (∀ err, (create demoStuff "v1" inlineSource (JObject 4) ∅ true []).1 = inl err →
         (SlogFinish "v1" ∉ evs)
         ∧ (SlogStartup "v1" ∈ evs →
            ∃ pre mo h, evs = pre ++ [SlogStartup "v1"; VatManagerFactory "v1" mo h]))
    ∧ (∀ manager, (create demoStuff "v1" inlineSource (JObject 4) ∅ true []).1 = inr manager →
         (∃ pre mo h, evs = pre ++ [SlogStartup "v1"; VatManagerFactory "v1" mo h;
                                    SlogFinish "v1"])
         ∨ ((SlogStartup "v1" ∉ evs) ∧ (SlogFinish "v1" ∉ evs))).
Proof. exact (create_startup_bracket demoStuff "v1" inlineSource (JObject 4) ∅ true []). Defined.

Lemma manager_option_keys_witness :
  composeManagerOptions (withOverrides xsOverrides demoStuff) (JObject 1) meteredOptions
    (JObject 5) !! "meterID"
  = overrides (withOverrides xsOverrides demoStuff) !! "meterID".
Proof.
  apply (proj2 (manager_option_keys (withOverrides xsOverrides demoStuff) (JObject 1)
                  meteredOptions (JObject 5))).
  apply list_elem_of_further, list_elem_of_here.
Defined.

Lemma describe_ends_with_source_witness :
  describe ∅ "from source bundle" = "(" +:+ "from source bundle" +:+ ")".
Proof.
  apply (proj2 (describe_ends_with_source ∅ "from source bundle")). reflexivity.
Defined.

Lemma posix_resolve_absolute (dir file : string) :
  Controller.posix_isAbsolute (Controller.posix_resolve dir file) = true.
Proof.
  unfold Controller.posix_isAbsolute, Controller.posix_resolve.
  destruct (Controller.startsWith dir "/") eqn:Hdir.
  - apply startsWith_spec in Hdir as [t ->]. apply startsWith_spec.
    exists (t +:+ "/" +:+ file). by rewrite string_app_assoc.
  - apply startsWith_spec. by eexists.
Qed.

Lemma loadBasedir_vat_sources_witness :
  ∃ cfg console m,
    Controller.loadBasedir (E:=unit) Controller.posix_resolve Controller.demo_fs "/demo"
    = (Some cfg, console)
    ∧ Controller.vatSources cfg = Some m
    ∧ NoDup (Controller.Map_keys m)
    ∧ (∀ n p, Controller.Map_get n m = Some p
              ↔ p = Controller.posix_resolve "/demo" ("vat-" +:+ n +:+ ".js")
                ∧ ∃ d, d ∈ Controller.demo_listing ∧ Controller.isFile d = true
                       ∧ Controller.name d = "vat-" +:+ n +:+ ".js")
    ∧ Controller.bootstrapIndexJS cfg
      = (if Controller.statSync Controller.demo_fs
              (Controller.posix_resolve "/demo" "bootstrap.js")
         then Some (Controller.posix_resolve "/demo" "bootstrap.js") else None).
Proof.
  apply (loadBasedir_vat_sources Controller.posix_resolve Controller.demo_fs "/demo"
           Controller.demo_listing).
  reflexivity.
Defined.

Lemma loadBasedir_console_witness :
  (Controller.loadBasedir (E:=unit) Controller.posix_resolve Controller.demo_fs "/demo").2
  = ("= loading config from basedir " +:+ "/demo")
    :: map (λ d, "ignoring  " +:+ Controller.name d)
         (filter (λ d, Controller.endsWith (Controller.name d) "~" = false
                       ∧ (Controller.startsWith (Controller.name d) "vat-"
                          && Controller.isFile d
                          && Controller.endsWith (Controller.name d) ".js") = false)
                 Controller.demo_listing).
Proof.
  apply (loadBasedir_console Controller.posix_resolve Controller.demo_fs "/demo"
           Controller.demo_listing).
  reflexivity.
Defined.

Lemma kernel_started_last_witness :
  ∃ initial evs,
    (Controller.buildVatController Controller.posix_isAbsolute Controller.demo_loadSetup
       Controller.demo_kernel Controller.demo_config true ["one"]).2
    = Controller.BuildKernel true initial :: evs
    ∧ ((∃ pre, evs = pre ++ [Controller.KernelStart "_bootstrap" ["one"]]
               ∧ (∀ v a, Controller.KernelStart v a ∉ pre)
               ∧ ((Controller.buildVatController Controller.posix_isAbsolute
                     Controller.demo_loadSetup Controller.demo_kernel
                     Controller.demo_config true ["one"]).1 = Controller.Done
                  ∨ ∃ reason,
                      (Controller.buildVatController Controller.posix_isAbsolute
                         Controller.demo_loadSetup Controller.demo_kernel
                         Controller.demo_config true ["one"]).1
                      = Controller.Threw (Controller.KernelFailed reason)))
       ∨ ((∀ v a, Controller.KernelStart v a ∉ evs)
          ∧ ∃ e, (Controller.buildVatController Controller.posix_isAbsolute
                    Controller.demo_loadSetup Controller.demo_kernel
                    Controller.demo_config true ["one"]).1 = Controller.Threw e)).
Proof.
  exact (kernel_started_last Controller.posix_isAbsolute Controller.demo_loadSetup
           Controller.demo_kernel Controller.demo_config true ["one"]).
Defined.

(** Every source of the demonstration loads. *)
Lemma demo_config_loads (withSES : bool) (sourceIndex : string) :
  sourceIndex ∈ Controller.sourceIndexes Controller.demo_config →
  Controller.loads Controller.demo_loadSetup withSES sourceIndex = true.
Proof.
  intros Hin. apply list_elem_of_In in Hin. cbn in Hin.
  by destruct Hin as [<-|[<-|[<-|[]]]].
Qed.

Lemma buildVatController_accepts_iff_witness :
  (Controller.buildVatController Controller.posix_isAbsolute Controller.demo_loadSetup
     Controller.demo_kernel Controller.demo_config true ["one"]).1 = Controller.Done.
Proof.
  destruct (buildVatController_accepts_iff Controller.posix_isAbsolute
              Controller.demo_loadSetup Controller.demo_kernel
              Controller.demo_config true ["one"]) as (_ & _ & Hquiet).
  rewrite Hquiet.
  - reflexivity.
  - reflexivity.
  - apply demo_config_loads.
Defined.

Lemma buildVatController_order_witness :
  (Controller.buildVatController Controller.posix_isAbsolute Controller.demo_loadSetup
     Controller.demo_kernel Controller.demo_config true ["one"]).2
  = [Controller.BuildKernel true "{}";
     Controller.ConsoleLog "= adding vat 'alice' from /demo/vat-alice.js";
     Controller.KernelAddGenesisVat "alice" "/demo/vat-alice.js";
     Controller.ConsoleLog "= adding vat 'bob' from /demo/vat-bob.js";
     Controller.KernelAddGenesisVat "bob" "/demo/vat-bob.js";
     Controller.ConsoleLog "= adding vat '_bootstrap' from /demo/bootstrap.js";
     Controller.KernelAddGenesisVat "_bootstrap" "/demo/bootstrap.js";
     Controller.KernelStart "_bootstrap" ["one"]].
Proof.
  destruct (buildVatController_order Controller.posix_isAbsolute Controller.demo_loadSetup
              Controller.demo_kernel Controller.demo_config true ["one"]) as [_ Hlog].
  - vm_compute. reflexivity.
  - rewrite Hlog. reflexivity.
Defined.

Lemma loadBasedir_config_accepted_witness :
  (Controller.buildVatController Controller.posix_isAbsolute Controller.demo_loadSetup
     Controller.demo_kernel Controller.demo_config false ["one"]).1 = Controller.Done.
Proof.
  destruct (loadBasedir_config_accepted Controller.posix_resolve Controller.posix_isAbsolute
              Controller.demo_loadSetup Controller.demo_kernel Controller.demo_fs "/demo"
              Controller.demo_config
              ["= loading config from basedir /demo"; "ignoring  bootstrap.js";
               "ignoring  vat-dir.js"; "ignoring  README.md"] false ["one"])
    as [_ Hdone].
  - apply posix_resolve_absolute.
  - vm_compute. reflexivity.
  - apply Hdone; [reflexivity|apply demo_config_loads].
Defined.

Lemma save_then_manage_witness :
  Controller.manageStateInBasedir Controller.posix_resolve
    (λ s, if String.eqb s "{}" then Some 0 else None) 7
    (Controller.save Controller.posix_resolve "/demo" "not json" ∅) "/demo"
  = default 7 ((λ s, if String.eqb s "{}" then Some 0 else None) "not json").
Proof.
  apply (proj1 (save_then_manage Controller.posix_resolve
                  (λ s, if String.eqb s "{}" then Some 0 else None) 7 ∅
                  "/demo" "/other" "not json")).
Defined.

Lemma fresh_canvas_color_witness :
  Gallery.getColor (Gallery.makeRandomData 10) 3 12
  = if bool_decide (3 < Z.of_nat 10)%Z then
      if bool_decide (12 < Z.of_nat 10)%Z then inr (Some "#D3D3D3") else inr None
    else inl Gallery.TypeError.
Proof. apply (fresh_canvas_color 10 3 12); lia. Defined.

Lemma setPixelState_getColor_witness :
  ∃ state',
    Gallery.setPixelState (Gallery.makeRandomData 3) 1 2 "#FF0000" []
    = inr (state', [] ++ [state'])
    ∧ length state' = length (Gallery.makeRandomData 3)
    ∧ Gallery.getColor state' (Z.of_nat 1) (Z.of_nat 2) = inr (Some "#FF0000")
    ∧ ∀ x' y', (x', y') ≠ (Z.of_nat 1, Z.of_nat 2) →
               Gallery.getColor state' x' y'
               = Gallery.getColor (Gallery.makeRandomData 3) x' y'.
Proof.
  apply (setPixelState_getColor (Gallery.makeRandomData 3) 1 2 "#FF0000" []).
  - vm_compute. lia.
  - lia.
  - lia.
Defined.

Lemma setPixelState_keeps_square_witness :
  ∃ state',
    Gallery.setPixelState (Gallery.makeRandomData 3) 2 0 "#00FF00" []
    = inr (state', [] ++ [state'])
    ∧ Gallery.full_square 3 state'.
Proof.
  destruct (setPixelState_keeps_square 3 (Gallery.makeRandomData 3) 2 0 "#00FF00" [])
    as (Hfresh & Hkeeps & _).
  apply Hkeeps; [exact Hfresh|lia|lia].
Defined.
